(** * mfb-remote: the speaker supervision engine of [src/main.py]

    A shallow embedding of the three classes the daemon is built from,

    - [SpeakerAccess]  (one smart plug, lazily connected),
    - [SpeakerThread]  (the debounced playback state machine and its loop),
    - [MyController]   (the Chromecast status listener),
    - [SpeakerAccess.from_config] and the construction of
      [SpeakerRemote] from the speakers section of the configuration,
    - the loop of [main] that looks for the Chromecast,

    followed by the properties proved about them.

    Conventions.  Python objects are records and a method takes [self] and
    returns the updated [self].  [datetime.datetime.utcnow()] is an input
    of the method that reads the clock.  The body of an endless
    [while True] loop is one function, and a run of the loop is the list
    of the times at which the timed wait returned. *)

From Stdlib Require Import ZArith List String Bool Lia.
Import ListNotations.
Local Open Scope string_scope.
Local Open Scope list_scope.
Local Open Scope Z_scope.

(** ** Module constants *)

Definition TIMEOUT : Z := 60.

Definition OFF : bool := false.
Definition ON : bool := true.

(** ** [datetime] and [timedelta]

    A naive [datetime] is a count of microseconds.  Subtracting two of
    them gives a [timedelta], which Python keeps normalised as
    (days, seconds, microseconds) with [0 <= seconds < 86400] and
    [0 <= microseconds < 1000000]; only [days] carries the sign. *)

Definition datetime := Z.

Record timedelta : Type := mk_timedelta
  { days : Z; seconds : Z; microseconds : Z }.

Definition usec_per_second : Z := 1000000.
Definition seconds_per_day : Z := 86400.

(** [timedelta(microseconds=us)] after normalisation (Python's [divmod],
    which rounds towards minus infinity as [Z.div] does). *)
Definition timedelta_of_microseconds (us : Z) : timedelta :=
  let s := us / usec_per_second in
  {| days := s / seconds_per_day;
     seconds := s mod seconds_per_day;
     microseconds := us mod usec_per_second |}.

(** [a - b] on datetimes. *)
Definition datetime_sub (a b : datetime) : timedelta :=
  timedelta_of_microseconds (a - b).

(** A datetime [s] whole seconds after [t]. *)
Definition after_seconds (t : datetime) (s : Z) : datetime :=
  t + s * usec_per_second.

(** ** [SpeakerRemote]

    The state machine only ever calls [switch_on] and [switch_off], both
    of which are [set_power_state] at a constant.  The threads that
    [set_power_state] starts, one per speaker, each run
    [SpeakerAccess.set_state] on their own; what the loop emits is the
    call itself. *)

Module SpeakerRemote.

Inductive call : Type :=
| set_power_state (state : bool).

Definition switch_on : call := set_power_state true.
Definition switch_off : call := set_power_state false.

Definition call_eqb (a b : call) : bool :=
  match a, b with
  | set_power_state x, set_power_state y => Bool.eqb x y
  end.

End SpeakerRemote.

(** ** [SpeakerThread] *)

Module SpeakerThread.

Definition PLAYING : Z := 1.
Definition STOPPED : Z := 2.
Definition INACTIVE : Z := 3.

(** The fields [__init__] sets, apart from [remote]: [_state] starts at
    0, [_state_changed] at [None], and [_event] is a
    [threading.Event], a flag that starts cleared. *)
Record t : Type := mk
  { _state : Z;
    _state_changed : option datetime;
    _event : bool }.

Definition init : t :=
  {| _state := 0; _state_changed := None; _event := false |}.

(** [state_changed_seconds_ago]; [now] is what [utcnow()] returns. *)
Definition state_changed_seconds_ago (now : datetime) (self : t) : Z :=
  match _state_changed self with
  | None => TIMEOUT + 1
  | Some changed => seconds (datetime_sub now changed)
  end.

(** [set_state]: the new [self] and the lines logged at INFO. *)
Definition set_state (now : datetime) (state : Z) (self : t)
  : t * list string :=
  if negb (_state self =? state) then
    ({| _state := state; _state_changed := Some now; _event := true |},
     [ if state =? PLAYING then "Chromecast state changed to PLAYING"
       else if state =? STOPPED then "Chromecast state changed to STOPPED"
       else "Chromecast state changed to INACTIVE" ])
  else (self, []).

Definition signal_playing (now : datetime) (self : t) := set_state now PLAYING self.
Definition signal_stopped (now : datetime) (self : t) := set_state now STOPPED self.
Definition signal_inactive (now : datetime) (self : t) := set_state now INACTIVE self.

(** How long [self._event.wait(timeout=10)] can block when nobody sets
    the event meanwhile: not at all when the flag is already set. *)
Definition wait_blocks_at_most (self : t) : Z :=
  if _event self then 0 else 10.

(** One turn of the [while True] in [run], from the moment the wait
    has returned: the flag is cleared when set, then the state is
    looked at.  [now] is the clock read by the [else] branch. *)
Definition run_body (now : datetime) (self : t)
  : t * list SpeakerRemote.call :=
  let self :=
    if _event self
    then {| _state := _state self;
            _state_changed := _state_changed self;
            _event := false |}
    else self in
  if _state self =? PLAYING then (self, [SpeakerRemote.switch_on])
  else if _state self =? INACTIVE then (self, [SpeakerRemote.switch_off])
  else if state_changed_seconds_ago now self >? TIMEOUT
       then (self, [SpeakerRemote.switch_off])
       else (self, []).

(** The first [length polls] turns of [run]; the k-th wait returns at
    [nth k polls].  The result lists what each turn commanded. *)
Fixpoint run (polls : list datetime) (self : t)
  : t * list (list SpeakerRemote.call) :=
  match polls with
  | [] => (self, [])
  | now :: rest =>
      let (self1, cmds) := run_body now self in
      let (self2, out) := run rest self1 in
      (self2, cmds :: out)
  end.

(** Repeated [set_state] with one and the same [state], at the given
    times. *)
Fixpoint set_state_repeatedly (times : list datetime) (state : Z) (self : t)
  : t * list string :=
  match times with
  | [] => (self, [])
  | now :: rest =>
      let (self1, log1) := set_state now state self in
      let (self2, log2) := set_state_repeatedly rest state self1 in
      (self2, log1 ++ log2)
  end.

(** Two objects the loop cannot tell apart: same state, same stamp. *)
Definition same_reading (a b : t) : Prop :=
  _state a = _state b /\ _state_changed a = _state_changed b.

(** Turns of the loop 10 seconds apart, the first at 5s: the schedule
    of a loop woken at 5s by a signal and by its timeout from then on. *)
Definition polls_every_10s : list datetime :=
  map (after_seconds 5000000) [0; 10; 20; 30; 40; 50; 60; 70].

End SpeakerThread.

(** ** [MyController]

    [is_active] and [is_playing] are properties inherited from
    pychromecast's [MediaController]; the listener reads them when a
    callback arrives.  The [status] argument of a callback is ignored. *)

Module MyController.

Record t : Type := mk
  { is_active : bool;
    is_playing : bool }.

(** [signal_speakers], acting on [self.speaker_thread]. *)
Definition signal_speakers (self : t) (now : datetime)
    (speaker_thread : SpeakerThread.t) : SpeakerThread.t * list string :=
  if negb (is_active self) then SpeakerThread.signal_inactive now speaker_thread
  else if is_playing self then SpeakerThread.signal_playing now speaker_thread
  else SpeakerThread.signal_stopped now speaker_thread.

Definition new_media_status {Status : Type} (self : t) (status : Status) :=
  signal_speakers self.

Definition new_cast_status {Status : Type} (self : t) (status : Status) :=
  signal_speakers self.

Definition new_connection_status {Status : Type} (self : t) (status : Status) :=
  signal_speakers self.

(** The three playback states as the specification names them, the
    number [SpeakerThread] uses for each, and the derived signal in the
    specification's words: Inactive if the receiver session is not
    active; else Playing if media is actively playing; else Stopped. *)
Inductive PlaybackState : Type := Playing | Stopped | Inactive.

Definition code (s : PlaybackState) : Z :=
  match s with
  | Playing => SpeakerThread.PLAYING
  | Stopped => SpeakerThread.STOPPED
  | Inactive => SpeakerThread.INACTIVE
  end.

Definition derived_signal_spec (active playing : bool) : PlaybackState :=
  if negb active then Inactive
  else if playing then Playing
  else Stopped.

End MyController.

(** ** Exceptions

    The handlers of [SpeakerAccess] tell three classes apart:
    [SpeakerConnectError], [IOError] (with its subclasses, such as
    [socket.timeout]), and every other subclass of [Exception]. *)

Inductive exn : Type :=
| SpeakerConnectError (msg : string)
| IOError (msg : string)
| OtherException (msg : string).

(** [str(e)] *)
Definition str (e : exn) : string :=
  match e with
  | SpeakerConnectError msg | IOError msg | OtherException msg => msg
  end.

(** What an [except C] clause catches. *)
Definition is_Exception (e : exn) : bool := true.

Definition is_IOError (e : exn) : bool :=
  match e with IOError _ => true | _ => false end.

Definition is_SpeakerConnectError (e : exn) : bool :=
  match e with SpeakerConnectError _ => true | _ => false end.

Inductive result (A : Type) : Type :=
| Return (a : A)
| Raise (e : exn).
Arguments Return {A} a.
Arguments Raise {A} e.

Definition power_state_as_text (state : bool) : string :=
  if state then "on" else "off".

(** ** The broadlink library

    [broadlink.sp2] is not part of the repository.  A plug object is known
    by its identity; what the library and the network behind it answer
    is a deterministic function of a [world] that every call may
    change. *)

Definition sp2_object : Type := nat.

Class Broadlink (world : Type) : Type :=
  { (** [sp2((host, port), mac, devtype)] *)
    sp2 : string -> Z -> list Z -> Z -> world -> result sp2_object * world;
    (** [dev.auth()] *)
    auth : sp2_object -> world -> result bool * world;
    (** [dev.check_power()] *)
    check_power : sp2_object -> world -> result bool * world;
    (** [dev.set_power(state)] *)
    set_power : sp2_object -> bool -> world -> result unit * world }.

(** What a method of [SpeakerAccess] does that can be seen from outside:
    the calls into the library with their outcome, and the log lines. *)
Inductive level : Type := INFO | WARNING.

Inductive event : Type :=
| Esp2 (host : string) (port : Z) (mac : list Z) (devtype : Z)
       (r : result sp2_object)
| Eauth (dev : sp2_object) (r : result bool)
| Echeck_power (dev : sp2_object) (r : result bool)
| Eset_power (dev : sp2_object) (state : bool) (r : result unit)
| Elog (lvl : level) (msg : string).

Definition is_sp2 (e : event) : bool :=
  match e with Esp2 _ _ _ _ _ => true | _ => false end.

Definition is_auth (e : event) : bool :=
  match e with Eauth _ _ => true | _ => false end.

Definition is_set_power (e : event) : bool :=
  match e with Eset_power _ _ _ => true | _ => false end.

(** How many of the events of [tr] satisfy [p]. *)
Definition count (p : event -> bool) (tr : list event) : nat :=
  List.length (filter p tr).

(** A failed [check_power] or [set_power] in the trace failed with an
    [IOError]. *)
Definition read_write_failure_is_IOError (e : event) : bool :=
  match e with
  | Echeck_power _ (Raise e) => is_IOError e
  | Eset_power _ _ (Raise e) => is_IOError e
  | _ => true
  end.

(** ** A monad for methods: state, exceptions, trace

    Effects of a raised exception stay: the state at the [raise] is the
    state the handler sees. *)

Definition M (S A : Type) : Type := S -> result A * S * list event.

Definition ret {S A} (a : A) : M S A := fun s => (Return a, s, []).

Definition raise {S A} (e : exn) : M S A := fun s => (Raise e, s, []).

Definition bind {S A B} (m : M S A) (k : A -> M S B) : M S B :=
  fun s =>
    match m s with
    | (Return a, s1, tr1) =>
        match k a s1 with (r, s2, tr2) => (r, s2, tr1 ++ tr2) end
    | (Raise e, s1, tr1) => (Raise e, s1, tr1)
    end.

(** [try: m  except C as e: handler e], where [catches] decides
    membership in [C]. *)
Definition try_except {S A} (m : M S A) (catches : exn -> bool)
    (handler : exn -> M S A) : M S A :=
  fun s =>
    match m s with
    | (Return a, s1, tr1) => (Return a, s1, tr1)
    | (Raise e, s1, tr1) =>
        if catches e
        then match handler e s1 with (r, s2, tr2) => (r, s2, tr1 ++ tr2) end
        else (Raise e, s1, tr1)
    end.

Definition emit {S} (e : event) : M S unit := fun s => (Return tt, s, [e]).

Definition logging_info {S} (msg : string) : M S unit := emit (Elog INFO msg).
Definition logging_warning {S} (msg : string) : M S unit := emit (Elog WARNING msg).

Notation "x <- m ;; k" := (bind m (fun x => k))
  (at level 61, m at next level, right associativity).
Notation "m ;; k" := (bind m (fun _ => k))
  (at level 61, right associativity).

(** The three parts of what running a method gives. *)
Definition result_of {S A} (x : result A * S * list event) : result A := fst (fst x).
Definition state_of {S A} (x : result A * S * list event) : S := snd (fst x).
Definition trace_of {S A} (x : result A * S * list event) : list event := snd x.

(** ** Builtins and the configuration

    [bytearray.fromhex] and [int] are Python's; what they accept is
    theirs to say, here they are functions that return or raise.
    [str.split] with a separator of one character is written out. *)

Class Builtins : Type :=
  { (** [bytearray.fromhex(text)] *)
    bytearray_fromhex : string -> result (list Z);
    (** [int(text)] *)
    int : string -> result Z }.

(** [s.split(sep)]: the pieces of [s] between the occurrences of [sep],
    one more than there are occurrences. *)
Fixpoint split (sep : Ascii.ascii) (s : string) : list string :=
  match s with
  | EmptyString => [EmptyString]
  | String c rest =>
      if Ascii.eqb c sep then EmptyString :: split sep rest
      else match split sep rest with
           | part :: parts => String c part :: parts
           | [] => [String c EmptyString]
           end
  end.

(** Whether [sep] occurs in [s]. *)
Fixpoint occurs (sep : Ascii.ascii) (s : string) : bool :=
  match s with
  | EmptyString => false
  | String c rest => Ascii.eqb c sep || occurs sep rest
  end.

(** How often [sep] occurs in [s]. *)
Fixpoint occurrences (sep : Ascii.ascii) (s : string) : nat :=
  match s with
  | EmptyString => 0%nat
  | String c rest =>
      if Ascii.eqb c sep then S (occurrences sep rest)
      else occurrences sep rest
  end.

Definition colon : Ascii.ascii := Ascii.ascii_of_nat 58.

(** One table of the [speakers] section, read at the three keys
    [from_config] uses; [None] is a key that is not there.  The values
    are of the types the handle takes them at: text for [mac] and
    [address], an integer for [devtype]. *)
Record speaker_conf : Type := mk_speaker_conf
  { conf_mac : option string;
    conf_address : option string;
    conf_devtype : option Z }.

(** A table [from_config] gets through: the three keys are there, the
    builtins take [mac] and the text after the colon, and [address] has
    its two pieces. *)
Definition acceptable {py : Builtins} (conf : speaker_conf) : bool :=
  match conf_mac conf, conf_address conf, conf_devtype conf with
  | Some mac_text, Some address, Some _ =>
      match bytearray_fromhex mac_text, split colon address with
      | Return _, [_; port_text] =>
          match int port_text with
          | Return _ => true
          | Raise _ => false
          end
      | _, _ => false
      end
  | _, _, _ => false
  end.

(** [config[key]] *)
Definition subscript {S A} (v : option A) : M S A :=
  match v with
  | Some a => ret a
  | None => raise (OtherException "KeyError")
  end.

(** A call of a builtin. *)
Definition builtin {S A} (r : result A) : M S A := fun s => (r, s, []).

(** [host, port = parts] *)
Definition unpack_pair {S} (parts : list string) : M S (string * string) :=
  match parts with
  | [a; b] => ret (a, b)
  | _ => raise (OtherException "ValueError")
  end.

(** ** [SpeakerAccess] *)

Module SpeakerAccess.

(** [_sp] is [None] or the plug object; an object is truthy. *)
Record t : Type := mk
  { name : string;
    host : string;
    port : Z;
    mac : list Z;
    devtype : Z;
    _sp : option sp2_object }.

Definition with_sp (self : t) (v : option sp2_object) : t :=
  {| name := name self; host := host self; port := port self;
     mac := mac self; devtype := devtype self; _sp := v |}.

Section Methods.

Context {world : Type} {lib : Broadlink world}.

(** A method runs on the object and the world. *)
Definition method (A : Type) : Type := M (t * world) A.

Definition get_self : method t := fun s => (Return (fst s), s, []).

(** [self._sp = v] *)
Definition set_sp (v : option sp2_object) : method unit :=
  fun s => (Return tt, (with_sp (fst s) v, snd s), []).

(** Calls into the library; each leaves its event. *)
Definition new_sp2 (h : string) (p : Z) (m : list Z) (d : Z)
  : method sp2_object :=
  fun s =>
    let (r, w) := sp2 h p m d (snd s) in
    (r, (fst s, w), [Esp2 h p m d r]).

(** A method called on [None] is an [AttributeError]. *)
Definition call_auth (dev : option sp2_object) : method bool :=
  match dev with
  | None => raise (OtherException "AttributeError")
  | Some d =>
      fun s =>
        let (r, w) := auth d (snd s) in
        (r, (fst s, w), [Eauth d r])
  end.

Definition call_check_power (dev : option sp2_object) : method bool :=
  match dev with
  | None => raise (OtherException "AttributeError")
  | Some d =>
      fun s =>
        let (r, w) := check_power d (snd s) in
        (r, (fst s, w), [Echeck_power d r])
  end.

Definition call_set_power (dev : option sp2_object) (state : bool)
  : method unit :=
  match dev with
  | None => raise (OtherException "AttributeError")
  | Some d =>
      fun s =>
        let (r, w) := set_power d state (snd s) in
        (r, (fst s, w), [Eset_power d state r])
  end.

Definition connect : method unit :=
  try_except
    (self <- get_self ;;
     dev <- new_sp2 (host self) (port self) (mac self) (devtype self) ;;
     set_sp (Some dev) ;;
     self <- get_self ;;
     _ <- call_auth (_sp self) ;;
     ret tt)
    is_Exception
    (fun e => raise (SpeakerConnectError "Connection error")) ;;
  self <- get_self ;;
  logging_info ("Connected to " ++ name self ++ " speaker")%string.

(** The property [sp]. *)
Definition sp : method (option sp2_object) :=
  self <- get_self ;;
  (match _sp self with
   | None => connect
   | Some _ => ret tt
   end) ;;
  self <- get_self ;;
  ret (_sp self).

Definition pvt_set_power_state (state : bool) : method unit :=
  try_except
    (dev <- sp ;;
     power <- call_check_power dev ;;
     if negb (Bool.eqb power state) then
       self <- get_self ;;
       logging_info ("Turning " ++ power_state_as_text state ++ " "
                       ++ name self ++ " speaker")%string ;;
       dev <- sp ;;
       call_set_power dev state
     else ret tt)
    is_IOError
    (fun e =>
       set_sp None ;;
       raise (SpeakerConnectError "Communication error")).

Definition set_state (state : bool) : method unit :=
  try_except
    (pvt_set_power_state state)
    is_SpeakerConnectError
    (fun e =>
       self <- get_self ;;
       logging_warning ("Could not turn " ++ power_state_as_text state
                          ++ " " ++ name self ++ " speaker: " ++ str e)%string).

(** [SpeakerAccess(name, host, port, mac, devtype)]: the object when
    [__init__] returns, the exception when it raises. *)
Definition __init__ (name : string) (host : string) (port : Z)
    (mac : list Z) (devtype : Z) (w : world)
  : result t * world * list event :=
  let self := {| name := name; host := host; port := port; mac := mac;
                 devtype := devtype; _sp := None |} in
  match
    try_except
      connect
      is_SpeakerConnectError
      (fun e =>
         logging_warning ("Could not connect to " ++ name ++ " speaker: "
                            ++ str e)%string)
      (self, w)
  with
  | (Return _, (self', w'), tr) => (Return self', w', tr)
  | (Raise e, (_, w'), tr) => (Raise e, w', tr)
  end.

(** [SpeakerAccess.from_config(name, config)]; before the object
    exists there is only the world. *)
Context {py : Builtins}.

Definition from_config (name : string) (config : speaker_conf) (w : world)
  : result t * world * list event :=
  (mac_text <- subscript (conf_mac config) ;;
   mac <- builtin (bytearray_fromhex mac_text) ;;
   address <- subscript (conf_address config) ;;
   host_port <- unpack_pair (split colon address) ;;
   port <- builtin (int (snd host_port)) ;;
   devtype <- subscript (conf_devtype config) ;;
   __init__ name (fst host_port) port mac devtype) w.

(** [SpeakerRemote.__init__]: the list comprehension over
    [config.items()], in the order of the items. *)
Fixpoint speakers_from_items (items : list (string * speaker_conf))
  : M world (list t) :=
  match items with
  | [] => ret []
  | (name, conf) :: rest =>
      speaker <- from_config name conf ;;
      others <- speakers_from_items rest ;;
      ret (speaker :: others)
  end.

End Methods.

End SpeakerAccess.

(** ** A scripted library

    A world for running the methods on: the answers that the next calls
    into the library get, in order, and the identity of the next plug
    object.  [Answer b] is a call that returns ([b] is the value of
    [auth] and [check_power]); past the end of the script every call
    times out. *)

Module Scripted.

Inductive reply : Type :=
| Answer (b : bool)
| Fails (e : exn).

Record world : Type := mk
  { fresh : sp2_object;
    script : list reply }.

Definition next (w : world) : reply * world :=
  match script w with
  | [] => (Fails (IOError "timed out"), w)
  | r :: rest => (r, {| fresh := fresh w; script := rest |})
  end.

Definition new_object (h : string) (p : Z) (m : list Z) (d : Z) (w : world)
  : result sp2_object * world :=
  match next w with
  | (Answer _, w') =>
      (Return (fresh w'), {| fresh := S (fresh w'); script := script w' |})
  | (Fails e, w') => (Raise e, w')
  end.

Definition returning_bool (w : world) : result bool * world :=
  match next w with
  | (Answer b, w') => (Return b, w')
  | (Fails e, w') => (Raise e, w')
  end.

Definition returning_unit (w : world) : result unit * world :=
  match next w with
  | (Answer _, w') => (Return tt, w')
  | (Fails e, w') => (Raise e, w')
  end.

#[export] Instance lib : Broadlink world :=
  {| sp2 := new_object;
     auth := fun _ => returning_bool;
     check_power := fun _ => returning_bool;
     set_power := fun _ _ => returning_unit |}.

Definition start (replies : list reply) : world :=
  {| fresh := 0%nat; script := replies |}.

(** A speaker as the configuration describes one, not yet connected. *)
Definition kitchen : SpeakerAccess.t :=
  {| SpeakerAccess.name := "kitchen";
     SpeakerAccess.host := "192.168.1.20";
     SpeakerAccess.port := 80;
     SpeakerAccess.mac := [52; 234; 52; 10; 11; 12];
     SpeakerAccess.devtype := 10001;
     SpeakerAccess._sp := None |}.

(** Stand-ins for the two builtins, for running [from_config]: they
    know plain decimal numerals and pairs of hexadecimal digits, on
    which they agree with Python's, and raise ValueError on anything
    else, also where Python's would accept (blanks around a numeral or
    between bytes, a sign, underscores).  Nothing is proved about
    them; the properties of [from_config] hold for every [Builtins]. *)
Definition digit (c : Ascii.ascii) : option Z :=
  let n := Z.of_nat (Ascii.nat_of_ascii c) in
  if (48 <=? n) && (n <=? 57) then Some (n - 48)
  else if (97 <=? n) && (n <=? 102) then Some (n - 87)
  else if (65 <=? n) && (n <=? 70) then Some (n - 55)
  else None.

Fixpoint decimal (acc : Z) (s : string) : option Z :=
  match s with
  | EmptyString => Some acc
  | String c rest =>
      match digit c with
      | Some d => if d <? 10 then decimal (10 * acc + d) rest else None
      | None => None
      end
  end.

Definition int_of_numeral (s : string) : result Z :=
  match s with
  | EmptyString => Raise (OtherException "ValueError")
  | _ => match decimal 0 s with
         | Some z => Return z
         | None => Raise (OtherException "ValueError")
         end
  end.

Fixpoint hex_pairs (s : string) : option (list Z) :=
  match s with
  | EmptyString => Some []
  | String a (String b rest) =>
      match digit a, digit b, hex_pairs rest with
      | Some x, Some y, Some bytes => Some (16 * x + y :: bytes)
      | _, _, _ => None
      end
  | String _ EmptyString => None
  end.

Definition fromhex_pairs (s : string) : result (list Z) :=
  match hex_pairs s with
  | Some bytes => Return bytes
  | None => Raise (OtherException "ValueError")
  end.

#[export] Instance py : Builtins :=
  {| bytearray_fromhex := fromhex_pairs;
     int := int_of_numeral |}.

(** The table of the kitchen speaker. *)
Definition kitchen_conf : speaker_conf :=
  {| conf_mac := Some "34ea340a0b0c";
     conf_address := Some "192.168.1.20:80";
     conf_devtype := Some 10001 |}.

End Scripted.

(** ** [main]: looking for the Chromecast

    [pychromecast.get_chromecasts()] answers every call with the list of
    the receivers it found.  The [while cast is None] loop is run on the
    answers of the calls to come; when they run out before a receiver
    of the name is among them, the loop is still going and there is no
    cast yet. *)

Module Main.

(** A receiver, as far as [main] looks at it: [cc.device.friendly_name],
    and which object it is. *)
Record chromecast : Type := mk_chromecast
  { friendly_name : string;
    ident : nat }.

Inductive effect : Type :=
| Log (lvl : level) (msg : string)
| Scan
| Sleep (secs : Z).

Definition is_sleep (e : effect) : bool :=
  match e with Sleep _ => true | _ => false end.

Definition is_scan (e : effect) : bool :=
  match e with Scan => true | _ => false end.

Definition is_retry_warning (e : effect) : bool :=
  match e with
  | Log WARNING _ => true
  | _ => false
  end.

(** The seconds slept in all. *)
Fixpoint slept (effects : list effect) : Z :=
  match effects with
  | [] => 0
  | Sleep secs :: rest => secs + slept rest
  | _ :: rest => slept rest
  end.

(** How many of the effects satisfy [p]. *)
Definition tally (p : effect -> bool) (effects : list effect) : nat :=
  List.length (filter p effects).

(** [cc.device.friendly_name == cast_name] *)
Definition named (cast_name : string) (cc : chromecast) : bool :=
  String.eqb (friendly_name cc) cast_name.

(** No receiver of the name in what a scan found. *)
Definition absent (cast_name : string) (scan : list chromecast) : bool :=
  negb (existsb (named cast_name) scan).

(** The loop, and the line logged after it. *)
Fixpoint discover (cast_name : string) (scans : list (list chromecast))
  : option chromecast * list effect :=
  match scans with
  | [] => (None, [])
  | found :: later =>
      let turn :=
        [Log INFO ("Connecting to " ++ cast_name)%string;
         Scan;
         Log WARNING "Could not connect to chromecast, retrying in 10 seconds";
         Sleep 2] in
      match find (named cast_name) found with
      | Some cc =>
          (Some cc, turn ++ [Log INFO ("Connected to " ++ cast_name)%string])
      | None =>
          let (cast, effects) := discover cast_name later in
          (cast, turn ++ effects)
      end
  end.

(** Two scans: the television alone, then the television and two
    receivers that both go by the name looked for. *)
Definition television : chromecast :=
  {| friendly_name := "Television"; ident := 1 |}.
Definition speaker_a : chromecast :=
  {| friendly_name := "Living Room"; ident := 2 |}.
Definition speaker_b : chromecast :=
  {| friendly_name := "Living Room"; ident := 3 |}.

Definition two_scans : list (list chromecast) :=
  [[television]; [television; speaker_a; speaker_b]].

End Main.

(** ** [SpeakerRemote]: the threads

    [set_power_state] makes one [threading.Thread] per speaker, with
    [speaker.set_state] for target, and starts it.  [start] returns to
    its caller once the thread is handed over (the interpreter is taken
    to have a thread to give); the target runs in the thread, and
    [Thread.run] is all that calls it: an exception that leaves the
    target ends the thread in [threading.excepthook] and is raised to
    nobody. *)

Module SpeakerRemoteThreads.

Record thread : Type := mk_thread
  { speaker : SpeakerAccess.t;
    arg : bool }.

(** [Thread(...).start()], on the threads started so far. *)
Definition start (th : thread) : M (list thread) unit :=
  fun started => (Return tt, started ++ [th], []).

Fixpoint set_power_state (state : bool) (speakers : list SpeakerAccess.t)
  : M (list thread) unit :=
  match speakers with
  | [] => ret tt
  | speaker :: rest =>
      start (mk_thread speaker state) ;;
      set_power_state state rest
  end.

Definition switch_on : list SpeakerAccess.t -> M (list thread) unit :=
  set_power_state true.

Definition switch_off : list SpeakerAccess.t -> M (list thread) unit :=
  set_power_state false.

(** The method behind a call of the loop. *)
Definition perform (c : SpeakerRemote.call) (speakers : list SpeakerAccess.t)
  : M (list thread) unit :=
  match c with
  | SpeakerRemote.set_power_state true => switch_on speakers
  | SpeakerRemote.set_power_state false => switch_off speakers
  end.

Fixpoint perform_all (cs : list SpeakerRemote.call)
    (speakers : list SpeakerAccess.t) : M (list thread) unit :=
  match cs with
  | [] => ret tt
  | c :: rest => perform c speakers ;; perform_all rest speakers
  end.

(** One turn of [SpeakerThread.run] with its remote: the thread object
    after the turn, how the calls into the remote ended, and the
    threads they started. *)
Definition turn (now : datetime) (self : SpeakerThread.t)
    (speakers : list SpeakerAccess.t)
  : SpeakerThread.t * (result unit * list thread * list event) :=
  let (self', cmds) := SpeakerThread.run_body now self in
  (self', perform_all cmds speakers []).

(** What a started thread does when it gets to run, in the world it
    finds: the exception [threading.excepthook] is handed, if any, the
    speaker and the world after, and the trace of the target. *)
Definition thread_run {world : Type} {lib : Broadlink world}
    (th : thread) (w : world)
  : option exn * (SpeakerAccess.t * world) * list event :=
  match SpeakerAccess.set_state (arg th) (speaker th, w) with
  | (Return _, s, tr) => (None, s, tr)
  | (Raise e, s, tr) => (Some e, s, tr)
  end.

End SpeakerRemoteThreads.

(** ** The listener and the loop together

    The speaker thread is shared by the thread that delivers the
    Chromecast callbacks and by its own loop.  A history is the list of
    what reached it, in order: a callback (all three are
    [signal_speakers]) with the clock and the controller's readings at
    that moment, or the return of the loop's wait.

    A callback is one entry of the list, so a history has each
    [set_state] done as a whole.  The source takes no lock: [set_state]
    writes [_state], then [_state_changed], then sets the event, and a
    turn of the loop can fall between two of the writes.  What is proved
    below over histories is about [_state] alone, which the loop never
    writes and [set_state] writes in one assignment; nothing is said
    here that relates the state to the stamp. *)

Module Supervision.

Inductive action : Type :=
| Status (now : datetime) (controller : MyController.t)
| Turn (now : datetime).

(** What one action does to the thread object, and what it commands (a
    callback commands nothing itself). *)
Definition step (a : action) (self : SpeakerThread.t)
  : SpeakerThread.t * list SpeakerRemote.call :=
  match a with
  | Status now controller =>
      (fst (MyController.signal_speakers controller now self), [])
  | Turn now => SpeakerThread.run_body now self
  end.

(** A whole history; the k-th entry of the result is what the k-th
    action commanded. *)
Fixpoint drive (history : list action) (self : SpeakerThread.t)
  : SpeakerThread.t * list (list SpeakerRemote.call) :=
  match history with
  | [] => (self, [])
  | a :: rest =>
      let (self1, cmds) := step a self in
      let (self2, out) := drive rest self1 in
      (self2, cmds :: out)
  end.

(** The readings of the most recent callback of a history. *)
Fixpoint last_status (history : list action) : option MyController.t :=
  match history with
  | [] => None
  | a :: rest =>
      match last_status rest with
      | Some c => Some c
      | None => match a with Status _ c => Some c | Turn _ => None end
      end
  end.

(** The state a controller's readings stand for. *)
Definition derived_state (c : MyController.t) : Z :=
  if negb (MyController.is_active c) then SpeakerThread.INACTIVE
  else if MyController.is_playing c then SpeakerThread.PLAYING
  else SpeakerThread.STOPPED.

End Supervision.

(** ** More readings of a trace *)

Definition is_check_power (e : event) : bool :=
  match e with Echeck_power _ _ => true | _ => false end.

Definition is_warning (e : event) : bool :=
  match e with Elog WARNING _ => true | _ => false end.

(** A failure that [set_state] catches: any exception of the constructor
    or of [auth], and an [IOError] of [check_power] or [set_power]. *)
Definition is_caught_failure (e : event) : bool :=
  match e with
  | Esp2 _ _ _ _ (Raise _) => true
  | Eauth _ (Raise _) => true
  | Echeck_power _ (Raise e) => is_IOError e
  | Eset_power _ _ (Raise e) => is_IOError e
  | _ => false
  end.

(** An [IOError] of [check_power] or of [set_power]. *)
Definition is_read_write_IOError (e : event) : bool :=
  match e with
  | Echeck_power _ (Raise e) => is_IOError e
  | Eset_power _ _ (Raise e) => is_IOError e
  | _ => false
  end.

(** ** Proof tools for methods *)

(** Unfolds a method down to the calls into the library. *)
Ltac unfold_method :=
  unfold SpeakerAccess.__init__, SpeakerAccess.set_state,
    SpeakerAccess.pvt_set_power_state, SpeakerAccess.sp,
    SpeakerAccess.connect, try_except, bind, ret, raise,
    SpeakerAccess.get_self, SpeakerAccess.set_sp, SpeakerAccess.new_sp2,
    SpeakerAccess.call_auth, SpeakerAccess.call_check_power,
    SpeakerAccess.call_set_power, logging_info, logging_warning, emit,
    result_of, state_of, trace_of;
  simpl.

(** Splits on what the next call into the library answers, on the class
    of a raised exception, and on the comparison of the power read with
    the power wanted. *)
Ltac next_call :=
  match goal with
  | H : sp2 ?h ?p ?m ?d ?w = _ |- context [sp2 ?h ?p ?m ?d ?w] =>
      rewrite H; simpl
  | H : auth ?d ?w = _ |- context [auth ?d ?w] => rewrite H; simpl
  | H : check_power ?d ?w = _ |- context [check_power ?d ?w] =>
      rewrite H; simpl
  | H : set_power ?d ?b ?w = _ |- context [set_power ?d ?b ?w] =>
      rewrite H; simpl
  | |- context [sp2 ?h ?p ?m ?d ?w] =>
      let r := fresh "r" in let w1 := fresh "w" in let E := fresh "Esp2" in
      destruct (sp2 h p m d w) as [r w1] eqn:E; destruct r; simpl
  | |- context [auth ?d ?w] =>
      let r := fresh "r" in let w1 := fresh "w" in let E := fresh "Eauth" in
      destruct (auth d w) as [r w1] eqn:E; destruct r; simpl
  | |- context [check_power ?d ?w] =>
      let r := fresh "r" in let w1 := fresh "w" in let E := fresh "Echeck" in
      destruct (check_power d w) as [r w1] eqn:E; destruct r; simpl
  | |- context [set_power ?d ?b ?w] =>
      let r := fresh "r" in let w1 := fresh "w" in let E := fresh "Eset" in
      destruct (set_power d b w) as [r w1] eqn:E; destruct r; simpl
  | |- context [if is_IOError ?e then _ else _] => destruct e; simpl
  | |- context [if is_SpeakerConnectError ?e then _ else _] =>
      destruct e; simpl
  | |- context [Bool.eqb ?a ?b] =>
      let E := fresh "Eeq" in destruct (Bool.eqb a b) eqn:E; simpl
  end.

(** Every path of a method, one goal each. *)
Ltac explore :=
  unfold_method; repeat next_call;
  repeat match goal with u : unit |- _ => destruct u end.

(** Closes a path on which an event assumed to be in the trace is not. *)
Ltac absurd_event :=
  repeat match goal with
    | H : _ \/ _ |- _ => destruct H
    | H : False |- _ => destruct H
    | H : @eq event _ _ |- _ =>
        first [ discriminate H | injection H as ?; subst ]
    | H : @eq (result _) _ _ |- _ =>
        first [ discriminate H | injection H as ?; subst ]
    | H : Bool.eqb ?a ?a = false |- _ =>
        rewrite Bool.eqb_reflx in H; discriminate H
    end.

(** Picks the event of a concrete trace that the goal asks for. *)
Ltac pick_event :=
  solve [ repeat first [ left; reflexivity | right ] ].

(** Splits on every boolean in sight. *)
Ltac split_bools :=
  repeat match goal with b : bool |- _ => destruct b end;
  simpl in *; try discriminate.

(** * Properties *)

(** ** The clock *)

Section Elapsed.



End Elapsed.

(** ** The state machine *)

Section StateMachine.

Import SpeakerThread.

Lemma same_reading_refl (a : t) : same_reading a a.
Proof. split; reflexivity. Qed.

(** A turn of the loop touches the event flag and nothing else. *)
Lemma run_body_same_reading (now : datetime) (self : t) :
  same_reading (fst (run_body now self)) self.
Proof.
  unfold run_body, same_reading.
  destruct self as [st ch [|]]; simpl;
    destruct (st =? PLAYING); simpl; auto;
    destruct (st =? INACTIVE); simpl; auto;
    match goal with |- context [if ?c then _ else _] => destruct c end;
    simpl; auto.
Qed.

(** What a turn commands depends on state and stamp only. *)
Lemma run_body_commands_reading (now : datetime) (a b : t) :
  same_reading a b ->
  snd (run_body now a) = snd (run_body now b).
Proof.
  intros [Hs Hc].
  destruct a as [sa ca ea], b as [sb cb eb]; simpl in Hs, Hc; subst.
  unfold run_body, state_changed_seconds_ago.
  destruct ea, eb; simpl;
    destruct (sb =? PLAYING); simpl; auto;
    destruct (sb =? INACTIVE); simpl; auto;
    match goal with |- context [if ?c then _ else _] => destruct c end;
    reflexivity.
Qed.

(** The i-th turn of a run commands what a single turn at that time
    commands on the object the run started from. *)
Lemma run_nth (polls : list datetime) :
  forall (self : t) (i : nat) (now : datetime),
    nth_error polls i = Some now ->
    nth_error (snd (run polls self)) i = Some (snd (run_body now self)).
Proof.
  induction polls as [|p rest IH]; intros self i now Hi.
  - destruct i; discriminate.
  - simpl.
    pose proof (run_body_same_reading p self) as Hsame.
    destruct (run_body p self) as [self1 cmds] eqn:Hbody.
    specialize (IH self1).
    destruct (run rest self1) as [self2 out] eqn:Hrun.
    destruct i as [|i]; simpl in *.
    + injection Hi as ->. rewrite Hbody. reflexivity.
    + rewrite (IH i now Hi).
      f_equal. apply run_body_commands_reading. exact Hsame.
Qed.

Lemma run_length (polls : list datetime) :
  forall self : t, List.length (snd (run polls self)) = List.length polls.
Proof.
  induction polls as [|p rest IH]; intros self; simpl.
  - reflexivity.
  - destruct (run_body p self) as [self1 cmds].
    specialize (IH self1).
    destruct (run rest self1) as [self2 out].
    simpl in *. now rewrite IH.
Qed.

(** A signal that repeats the current state does nothing at all. *)
Lemma set_state_same (now : datetime) (self : t) :
  set_state now (_state self) self = (self, []).
Proof. unfold set_state. now rewrite Z.eqb_refl. Qed.

Lemma set_state_state (now : datetime) (state : Z) (self : t) :
  _state (fst (set_state now state self)) = state.
Proof.
  unfold set_state.
  destruct (_state self =? state) eqn:E; simpl.
  - now apply Z.eqb_eq.
  - reflexivity.
Qed.

Lemma set_state_repeatedly_same (times : list datetime) :
  forall self : t,
    set_state_repeatedly times (_state self) self = (self, []).
Proof.
  induction times as [|now rest IH]; intros self; simpl.
  - reflexivity.
  - rewrite set_state_same, IH. reflexivity.
Qed.

(** C3: calling set_state again and again with one state does the work
    at most once.  The first call changes the state, stamps the time
    and sets the event when the state differs from the current one (and
    does nothing otherwise); all the calls together leave what the
    first one left, log included; and any later call with that state
    returns the object untouched, stamp included, and logs nothing. *)
Theorem set_state_idempotent :
  forall (self : t) (state : Z) (now : datetime) (times : list datetime)
         (later : datetime),
    fst (set_state now state self)
      = (if _state self =? state then self
         else {| _state := state; _state_changed := Some now;
                 _event := true |})
    /\ set_state_repeatedly (now :: times) state self
         = set_state now state self
    /\ set_state later state (fst (set_state now state self))
         = (fst (set_state now state self), [])
    /\ _state_changed (fst (set_state later state
                               (fst (set_state now state self))))
         = _state_changed (fst (set_state now state self)).
Proof.
  intros self state now times later.
  pose proof (set_state_state now state self) as Hst.
  assert (Hlater : forall t', set_state t' state (fst (set_state now state self))
                              = (fst (set_state now state self), [])).
  { intros t'. rewrite <- Hst at 1. apply set_state_same. }
  repeat split.
  - unfold set_state. destruct (_state self =? state); reflexivity.
  - simpl.
    destruct (set_state now state self) as [self1 log1] eqn:E1.
    simpl in Hst.
    rewrite <- Hst, set_state_repeatedly_same, app_nil_r.
    reflexivity.
  - apply Hlater.
  - rewrite Hlater. reflexivity.
Qed.

(** C9: a turn of the loop that finds the state PLAYING commands
    switch_on, and one that finds INACTIVE commands switch_off,
    whatever the stamp, the event flag and the time; so does every
    turn of a run that starts there. *)
Theorem playing_and_inactive_unconditional :
  forall (changed : option datetime) (event : bool) (now : datetime)
         (polls : list datetime),
    snd (run_body now (mk PLAYING changed event)) = [SpeakerRemote.switch_on]
    /\ snd (run_body now (mk INACTIVE changed event)) = [SpeakerRemote.switch_off]
    /\ snd (run polls (mk PLAYING changed event))
         = map (fun _ => [SpeakerRemote.switch_on]) polls
    /\ snd (run polls (mk INACTIVE changed event))
         = map (fun _ => [SpeakerRemote.switch_off]) polls.
Proof.
  intros changed event now polls.
  assert (Hp : forall ev t', run_body t' (mk PLAYING changed ev)
                             = (mk PLAYING changed false, [SpeakerRemote.switch_on])).
  { intros [|] t'; reflexivity. }
  assert (Hi : forall ev t', run_body t' (mk INACTIVE changed ev)
                             = (mk INACTIVE changed false, [SpeakerRemote.switch_off])).
  { intros [|] t'; reflexivity. }
  repeat split.
  - now rewrite Hp.
  - now rewrite Hi.
  - revert event. induction polls as [|p rest IH]; intros event; simpl.
    + reflexivity.
    + rewrite Hp. specialize (IH false).
      destruct (run rest (mk PLAYING changed false)) as [s out].
      simpl in *. now rewrite IH.
  - revert event. induction polls as [|p rest IH]; intros event; simpl.
    + reflexivity.
    + rewrite Hi. specialize (IH false).
      destruct (run rest (mk INACTIVE changed false)) as [s out].
      simpl in *. now rewrite IH.
Qed.

(** C7: while the change stamp is unset the elapsed-time query answers
    TIMEOUT + 1, which is more than the grace period; a turn of the
    loop on the initial object (state 0, no stamp) therefore commands
    switch_off; and after signal_inactive on the initial object the
    event is set, the wait does not block, and the turn that follows
    commands switch_off. *)
Theorem cold_start_switches_off :
  forall (state : Z) (event : bool) (now signalled : datetime),
    state_changed_seconds_ago now (mk state None event) = TIMEOUT + 1
    /\ TIMEOUT < state_changed_seconds_ago now (mk state None event)
    /\ snd (run_body now (mk 0 None event)) = [SpeakerRemote.switch_off]
    /\ snd (run_body now init) = [SpeakerRemote.switch_off]
    /\ _event (fst (signal_inactive signalled init)) = true
    /\ wait_blocks_at_most (fst (signal_inactive signalled init)) = 0
    /\ snd (run_body now (fst (signal_inactive signalled init)))
         = [SpeakerRemote.switch_off].
Proof.
  intros state event now signalled.
  repeat split; try reflexivity.
  destruct event; reflexivity.
Qed.

(** What a turn commands while the state is STOPPED: switch_off exactly
    when the whole seconds read from the clock exceed TIMEOUT. *)
Lemma run_body_stopped (now changed : datetime) (event : bool) :
  snd (run_body now (mk STOPPED (Some changed) event))
    = if seconds (datetime_sub now changed) >? TIMEOUT
      then [SpeakerRemote.switch_off] else [].
Proof.
  destruct event; unfold run_body, state_changed_seconds_ago; simpl;
    match goal with |- context [if ?c then _ else _] => destruct c end;
    reflexivity.
Qed.





(** The same up to the last microsecond before T+61s. *)
Lemma stopped_poll_before_61s_commands_nothing :
  snd (run_body (after_seconds 5000000 61 - 1)
         (fst (set_state 5000000 STOPPED init))) = [].
Proof. reflexivity. Qed.

(** C8: each of the three callbacks, whatever status it is handed, does
    one set_state on the speaker thread, with the state derived as the
    specification says: INACTIVE when the receiver is not active,
    otherwise PLAYING when media is playing, otherwise STOPPED. *)
Theorem callbacks_emit_derived_signal :
  forall (Status : Type) (status : Status) (self : MyController.t)
         (now : datetime) (thread : t),
    let derived :=
      MyController.code
        (MyController.derived_signal_spec
           (MyController.is_active self) (MyController.is_playing self)) in
    MyController.new_media_status self status now thread
      = set_state now derived thread
    /\ MyController.new_cast_status self status now thread
         = set_state now derived thread
    /\ MyController.new_connection_status self status now thread
         = set_state now derived thread.
Proof.
  intros Status status [active playing] now thread; simpl.
  unfold MyController.new_media_status, MyController.new_cast_status,
    MyController.new_connection_status, MyController.signal_speakers,
    MyController.derived_signal_spec; simpl.
  destruct active, playing; simpl; repeat split; reflexivity.
Qed.

End StateMachine.

(** ** The device handle *)

Section Handle.

Import SpeakerAccess.

Context {world : Type} {lib : Broadlink world}.

Local Arguments String.append : simpl never.

(** [connect], call by call. *)
Lemma connect_unfold (self : t) (w : world) :
  connect (self, w) =
    match sp2 (host self) (port self) (mac self) (devtype self) w with
    | (Raise e, w1) =>
        (Raise (SpeakerConnectError "Connection error"), (self, w1),
         [Esp2 (host self) (port self) (mac self) (devtype self) (Raise e)])
    | (Return dev, w1) =>
        match auth dev w1 with
        | (Raise e, w2) =>
            (Raise (SpeakerConnectError "Connection error"),
             (with_sp self (Some dev), w2),
             [Esp2 (host self) (port self) (mac self) (devtype self) (Return dev);
              Eauth dev (Raise e)])
        | (Return b, w2) =>
            (Return tt, (with_sp self (Some dev), w2),
             [Esp2 (host self) (port self) (mac self) (devtype self) (Return dev);
              Eauth dev (Return b);
              Elog INFO ("Connected to " ++ name self ++ " speaker")%string])
        end
    end.
Proof.
  unfold_method. repeat next_call; reflexivity.
Qed.

(** A failing [connect] raises SpeakerConnectError and nothing else. *)
Lemma connect_raises_only_connect_error (self : t) (w : world) (e : exn) :
  result_of (connect (self, w)) = Raise e ->
  e = SpeakerConnectError "Connection error".
Proof.
  rewrite connect_unfold. unfold result_of.
  repeat next_call; intros H; congruence.
Qed.

(** When the constructor of the plug object fails, [_sp] is as before. *)
Lemma connect_constructor_failure (self : t) (w w1 : world) (e : exn) :
  sp2 (host self) (port self) (mac self) (devtype self) w = (Raise e, w1) ->
  fst (state_of (connect (self, w))) = self.
Proof.
  intros H. rewrite connect_unfold, H. reflexivity.
Qed.

(** When [auth] fails, [_sp] holds the object that failed to
    authenticate. *)
Lemma connect_auth_failure (self : t) (w w1 w2 : world) (dev : sp2_object)
    (e : exn) :
  sp2 (host self) (port self) (mac self) (devtype self) w = (Return dev, w1) ->
  auth dev w1 = (Raise e, w2) ->
  result_of (connect (self, w)) = Raise (SpeakerConnectError "Connection error")
  /\ _sp (fst (state_of (connect (self, w)))) = Some dev.
Proof.
  intros H1 H2. rewrite connect_unfold, H1, H2. split; reflexivity.
Qed.

(** [pvt_set_power_state] on a handle that holds a plug object. *)
Lemma pvt_set_power_state_connected (self : t) (w : world) (state : bool)
    (dev : sp2_object) :
  _sp self = Some dev ->
  pvt_set_power_state state (self, w) =
    match check_power dev w with
    | (Raise e, w1) =>
        if is_IOError e
        then (Raise (SpeakerConnectError "Communication error"),
              (with_sp self None, w1), [Echeck_power dev (Raise e)])
        else (Raise e, (self, w1), [Echeck_power dev (Raise e)])
    | (Return power, w1) =>
        if negb (Bool.eqb power state) then
          let turning :=
            Elog INFO ("Turning " ++ power_state_as_text state ++ " "
                         ++ name self ++ " speaker")%string in
          match set_power dev state w1 with
          | (Raise e, w2) =>
              if is_IOError e
              then (Raise (SpeakerConnectError "Communication error"),
                    (with_sp self None, w2),
                    [Echeck_power dev (Return power); turning;
                     Eset_power dev state (Raise e)])
              else (Raise e, (self, w2),
                    [Echeck_power dev (Return power); turning;
                     Eset_power dev state (Raise e)])
          | (Return u, w2) =>
              (Return tt, (self, w2),
               [Echeck_power dev (Return power); turning;
                Eset_power dev state (Return u)])
          end
        else (Return tt, (self, w1), [Echeck_power dev (Return power)])
    end.
Proof.
  destruct self as [n h p m d cur]; simpl; intros ->.
  explore; reflexivity.
Qed.

(** On a handle without one it is [connect] first. *)
Lemma pvt_set_power_state_disconnected (self : t) (w : world) (state : bool) :
  _sp self = None ->
  pvt_set_power_state state (self, w) =
    match connect (self, w) with
    | (Raise e, s1, tr1) => (Raise e, s1, tr1)
    | (Return _, s1, tr1) =>
        match pvt_set_power_state state s1 with
        | (r, s2, tr2) => (r, s2, tr1 ++ tr2)
        end
    end.
Proof.
  destruct self as [n h p m d cur]; simpl; intros ->.
  explore; reflexivity.
Qed.

(** A handle without a plug object starts by constructing one. *)
Lemma disconnected_reconnects (self : t) (w : world) (state : bool) :
  _sp self = None ->
  exists r rest1 rest2,
    trace_of (pvt_set_power_state state (self, w))
      = Esp2 (host self) (port self) (mac self) (devtype self) r :: rest1
    /\ trace_of (set_state state (self, w))
         = Esp2 (host self) (port self) (mac self) (devtype self) r :: rest2.
Proof.
  destruct self as [n h p m d cur]; simpl; intros ->.
  explore; do 3 eexists; split; reflexivity.
Qed.

(** No method changes where the handle points. *)
Lemma pvt_set_power_state_address (self : t) (w : world) (state : bool) :
  let self' := fst (state_of (pvt_set_power_state state (self, w))) in
  name self' = name self /\ host self' = host self /\ port self' = port self
  /\ mac self' = mac self /\ devtype self' = devtype self.
Proof.
  destruct self as [n h p m d [cur|]]; explore; repeat split; reflexivity.
Qed.

(** A handle that holds a plug object never constructs another one in
    [set_state], authenticated or not. *)
Lemma connected_never_reconnects (self : t) (w : world) (state : bool)
    (dev : sp2_object) :
  _sp self = Some dev ->
  count is_sp2 (trace_of (set_state state (self, w))) = 0%nat
  /\ count is_auth (trace_of (set_state state (self, w))) = 0%nat.
Proof.
  destruct self as [n h p m d cur]; simpl; intros ->.
  explore; split; reflexivity.
Qed.

(** What [auth] returns is dropped: [connect] succeeds on [False] as it
    does on [True]. *)
Lemma connect_ignores_auth_value (self : t) (w w1 w2 : world)
    (dev : sp2_object) (b : bool) :
  sp2 (host self) (port self) (mac self) (devtype self) w = (Return dev, w1) ->
  auth dev w1 = (Return b, w2) ->
  result_of (connect (self, w)) = Return tt
  /\ _sp (fst (state_of (connect (self, w)))) = Some dev.
Proof.
  intros H1 H2. rewrite connect_unfold, H1, H2. split; reflexivity.
Qed.

(** C5: when the power query of a set_state(desired) call returns
    desired, the call invokes set_power zero times and returns. *)
Theorem set_state_no_redundant_write :
  forall (self : t) (w : world) (desired : bool) (dev : sp2_object),
    In (Echeck_power dev (Return desired))
       (trace_of (set_state desired (self, w))) ->
    count is_set_power (trace_of (set_state desired (self, w))) = 0%nat
    /\ result_of (set_state desired (self, w)) = Return tt.
Proof.
  intros [n h p m d [cur|]] w desired dev; explore; intros H.
  all: try (split; reflexivity).
  all: absurd_event.
Qed.

(** C6: when check_power or set_power fails with an IOError during
    pvt_set_power_state, the call raises SpeakerConnectError and leaves
    _sp at None; the next call through the handle, in whatever world,
    starts by constructing a plug object for the same address. *)
Theorem io_failure_discards_session :
  forall (self : t) (w : world) (state b : bool) (dev : sp2_object)
         (msg : string),
    In (Echeck_power dev (Raise (IOError msg)))
       (trace_of (pvt_set_power_state state (self, w)))
    \/ In (Eset_power dev b (Raise (IOError msg)))
          (trace_of (pvt_set_power_state state (self, w))) ->
    result_of (pvt_set_power_state state (self, w))
      = Raise (SpeakerConnectError "Communication error")
    /\ _sp (fst (state_of (pvt_set_power_state state (self, w)))) = None
    /\ forall (state' : bool) (w' : world),
         exists r rest1 rest2,
           trace_of (pvt_set_power_state state'
                       (fst (state_of (pvt_set_power_state state (self, w))), w'))
             = Esp2 (host self) (port self) (mac self) (devtype self) r :: rest1
           /\ trace_of (set_state state'
                          (fst (state_of (pvt_set_power_state state (self, w))), w'))
                = Esp2 (host self) (port self) (mac self) (devtype self) r :: rest2.
Proof.
  intros self w state b dev msg H.
  assert (Hfail :
    result_of (pvt_set_power_state state (self, w))
      = Raise (SpeakerConnectError "Communication error")
    /\ _sp (fst (state_of (pvt_set_power_state state (self, w)))) = None).
  { revert H. destruct self as [n h p m d [cur|]]; explore; intros H.
    all: try (split; reflexivity).
    all: absurd_event. }
  destruct Hfail as [Hres Hsp].
  split; [exact Hres | split; [exact Hsp |]].
  intros state' w'.
  destruct (pvt_set_power_state_address self w state)
    as (_ & Hh & Hp & Hm & Hd).
  rewrite <- Hh, <- Hp, <- Hm, <- Hd.
  apply disconnected_reconnects. exact Hsp.
Qed.

(** The loop over the speakers returns, with one thread started per
    speaker for the state given. *)
Lemma set_power_state_returns (state : bool) (speakers : list t) :
  forall started : list SpeakerRemoteThreads.thread,
    SpeakerRemoteThreads.set_power_state state speakers started
      = (Return tt,
         started ++ map (fun speaker => SpeakerRemoteThreads.mk_thread speaker state)
                        speakers,
         []).
Proof.
  induction speakers as [|speaker rest IH]; intros started; simpl.
  - unfold ret. now rewrite app_nil_r.
  - unfold bind, SpeakerRemoteThreads.start. rewrite IH.
    now rewrite <- app_assoc.
Qed.

Lemma perform_all_returns (cs : list SpeakerRemote.call) (speakers : list t) :
  forall started : list SpeakerRemoteThreads.thread,
    result_of (SpeakerRemoteThreads.perform_all cs speakers started)
      = Return tt.
Proof.
  induction cs as [|[[|]] rest IH]; intros started; simpl.
  - reflexivity.
  - unfold bind, SpeakerRemoteThreads.switch_on.
    rewrite set_power_state_returns.
    specialize (IH (started ++ map (fun speaker =>
                      SpeakerRemoteThreads.mk_thread speaker true) speakers)).
    destruct (SpeakerRemoteThreads.perform_all rest speakers _) as [[r s] tr].
    exact IH.
  - unfold bind, SpeakerRemoteThreads.switch_off.
    rewrite set_power_state_returns.
    specialize (IH (started ++ map (fun speaker =>
                      SpeakerRemoteThreads.mk_thread speaker false) speakers)).
    destruct (SpeakerRemoteThreads.perform_all rest speakers _) as [[r s] tr].
    exact IH.
Qed.

(** C4 (amended): a set_state call in which every failure of
    check_power and set_power is an IOError returns to its caller.  When
    a failure occurred in it (any exception of the constructor or of
    auth, an IOError of check_power or set_power), pvt_set_power_state
    raised SpeakerConnectError, and set_state caught it and logged the
    warning as the last thing it did; when none occurred, set_state did
    what pvt_set_power_state did and logged no warning.  Whatever the
    plug does, an exception that does leave set_state is the one
    threading.excepthook gets in the thread started for that speaker;
    set_power_state returns with one thread started per speaker, and the
    turn of the loop that called it returns. *)
Theorem set_state_catches_io_failures :
  forall (self : t) (w : world) (desired : bool) (speakers : list t)
         (started : list SpeakerRemoteThreads.thread) (now : datetime)
         (loop : SpeakerThread.t),
    (forallb read_write_failure_is_IOError
       (trace_of (set_state desired (self, w))) = true ->
     result_of (set_state desired (self, w)) = Return tt
     /\ if existsb is_caught_failure (trace_of (set_state desired (self, w)))
        then exists reason : string,
               (reason = "Connection error" \/ reason = "Communication error")
               /\ result_of (pvt_set_power_state desired (self, w))
                  = Raise (SpeakerConnectError reason)
               /\ trace_of (set_state desired (self, w))
                  = trace_of (pvt_set_power_state desired (self, w))
                      ++ [Elog WARNING
                            ("Could not turn " ++ power_state_as_text desired
                               ++ " " ++ name self ++ " speaker: " ++ reason)%string]
        else result_of (pvt_set_power_state desired (self, w)) = Return tt
             /\ trace_of (set_state desired (self, w))
                = trace_of (pvt_set_power_state desired (self, w))
             /\ count is_warning (trace_of (set_state desired (self, w))) = 0%nat)
    /\ fst (fst (SpeakerRemoteThreads.thread_run
                   (SpeakerRemoteThreads.mk_thread self desired) w))
       = match result_of (set_state desired (self, w)) with
         | Return _ => None
         | Raise e => Some e
         end
    /\ SpeakerRemoteThreads.set_power_state desired speakers started
       = (Return tt,
          started ++ map (fun speaker =>
                            SpeakerRemoteThreads.mk_thread speaker desired)
                         speakers,
          [])
    /\ result_of (snd (SpeakerRemoteThreads.turn now loop speakers)) = Return tt.
Proof.
  intros self w desired speakers started now loop.
  split; [|split; [|split]].
  - destruct self as [n h p m d [cur|]]; explore; intros H.
    all: try discriminate H.
    all: split; [reflexivity|].
    all: try (split; [reflexivity | split; reflexivity]).
    all: eexists; split; [|split; reflexivity]; auto.
  - unfold SpeakerRemoteThreads.thread_run, result_of; simpl.
    destruct (set_state desired (self, w)) as [[[u|e] s] tr]; reflexivity.
  - apply set_power_state_returns.
  - unfold SpeakerRemoteThreads.turn.
    destruct (SpeakerThread.run_body now loop) as [loop' cmds]; simpl.
    apply perform_all_returns.
Qed.

(** C10: constructing a handle calls the constructor of the plug object
    exactly once, and auth once when that succeeded; it returns the
    handle whatever the two calls answer, and when either fails the
    warning is logged. *)
Theorem construction_connects_once_never_raises :
  forall (n h : string) (p : Z) (m : list Z) (d : Z) (w : world),
    exists (self : t) (r : result sp2_object) (rest : list event),
      result_of (__init__ n h p m d w) = Return self
      /\ (name self = n /\ host self = h /\ port self = p /\ mac self = m
          /\ devtype self = d)
      /\ trace_of (__init__ n h p m d w) = Esp2 h p m d r :: rest
      /\ count is_sp2 (trace_of (__init__ n h p m d w)) = 1%nat
      /\ ((exists e,
             r = Raise e /\ _sp self = None
             /\ rest = [Elog WARNING ("Could not connect to " ++ n
                                        ++ " speaker: Connection error")%string])
          \/ (exists dev e,
                r = Return dev /\ _sp self = Some dev
                /\ rest = [Eauth dev (Raise e);
                           Elog WARNING ("Could not connect to " ++ n
                                           ++ " speaker: Connection error")%string])
          \/ (exists dev b,
                r = Return dev /\ _sp self = Some dev
                /\ rest = [Eauth dev (Return b);
                           Elog INFO ("Connected to " ++ n ++ " speaker")%string])).
Proof.
  intros n h p m d w. explore.
  - do 3 eexists. repeat split; try reflexivity.
    right; right. do 2 eexists. repeat split; reflexivity.
  - do 3 eexists. repeat split; try reflexivity.
    right; left. do 2 eexists. repeat split; reflexivity.
  - do 3 eexists. repeat split; try reflexivity.
    left. eexists. repeat split; reflexivity.
Qed.

End Handle.

(** ** The handle on scripted worlds *)

Section Scenarios.

Import SpeakerAccess Scripted.

(** C2 (the code where the claim fails): the constructor succeeds and auth
    times out on the first connect.  connect raises SpeakerConnectError,
    yet _sp holds the object that failed to authenticate; the set_state
    that follows goes straight to check_power on that object and never
    calls the constructor again. *)
Theorem connect_auth_failure_keeps_stale_session :
  result_of (connect (kitchen, start [Answer true; Fails (IOError "timed out");
                                      Answer true]))
    = Raise (SpeakerConnectError "Connection error")
  /\ _sp (fst (state_of (connect (kitchen,
                                  start [Answer true; Fails (IOError "timed out");
                                         Answer true]))))
       = Some 0%nat
  /\ trace_of (set_state ON
                 (state_of (connect (kitchen,
                                     start [Answer true;
                                            Fails (IOError "timed out");
                                            Answer true]))))
       = [Echeck_power 0%nat (Return true)]
  /\ count is_sp2
       (trace_of (set_state ON
                    (state_of (connect (kitchen,
                                        start [Answer true;
                                               Fails (IOError "timed out");
                                               Answer true])))))
       = 0%nat.
Proof. repeat split; reflexivity. Qed.

(** The same first connect at construction: the handle is created with
    the unauthenticated object in _sp. *)
Lemma construction_auth_failure_keeps_stale_session :
  result_of (__init__ "kitchen" "192.168.1.20" 80 [52; 234; 52; 10; 11; 12]
               10001 (start [Answer true; Fails (IOError "timed out")]))
    = Return (with_sp kitchen (Some 0%nat)).
Proof. reflexivity. Qed.

(** C4, as the specification has it, fails: check_power raises an
    exception that is not an IOError, and set_state raises it to its
    caller. *)
Lemma set_state_raises_other_exception :
  result_of (set_state ON (kitchen,
                           start [Answer true; Answer true;
                                  Fails (OtherException "IndexError")]))
    = Raise (OtherException "IndexError")
  /\ trace_of (set_state ON (kitchen,
                             start [Answer true; Answer true;
                                    Fails (OtherException "IndexError")]))
       = [Esp2 "192.168.1.20" 80 [52; 234; 52; 10; 11; 12] 10001 (Return 0%nat);
          Eauth 0%nat (Return true);
          Elog INFO "Connected to kitchen speaker";
          Echeck_power 0%nat (Raise (OtherException "IndexError"))].
Proof. split; reflexivity. Qed.

(** check_power times out after a good connect: set_state returns,
    having logged the warning. *)
Lemma set_state_catches_io_failures_witness :
  result_of (set_state ON (kitchen,
                           start [Answer true; Answer true;
                                  Fails (IOError "timed out")]))
    = Return tt
  /\ exists reason : string,
       (reason = "Connection error" \/ reason = "Communication error")
       /\ result_of (pvt_set_power_state ON
                       (kitchen, start [Answer true; Answer true;
                                        Fails (IOError "timed out")]))
          = Raise (SpeakerConnectError reason)
       /\ trace_of (set_state ON (kitchen,
                                  start [Answer true; Answer true;
                                         Fails (IOError "timed out")]))
          = trace_of (pvt_set_power_state ON
                        (kitchen, start [Answer true; Answer true;
                                         Fails (IOError "timed out")]))
              ++ [Elog WARNING
                    ("Could not turn " ++ power_state_as_text ON
                       ++ " " ++ name kitchen ++ " speaker: " ++ reason)%string].
Proof.
  exact (proj1 (set_state_catches_io_failures kitchen
                  (start [Answer true; Answer true; Fails (IOError "timed out")])
                  ON [] [] 0 SpeakerThread.init) eq_refl).
Defined.

(** The plug is already on: no set_power. *)
Lemma set_state_no_redundant_write_witness :
  count is_set_power
    (trace_of (set_state ON (kitchen, start [Answer true; Answer true;
                                             Answer true]))) = 0%nat
  /\ result_of (set_state ON (kitchen, start [Answer true; Answer true;
                                             Answer true])) = Return tt.
Proof.
  apply (set_state_no_redundant_write kitchen
           (start [Answer true; Answer true; Answer true]) ON 0%nat).
  simpl. auto.
Defined.

(** The plug is off and set_power times out. *)
Lemma io_failure_discards_session_witness :
  result_of (pvt_set_power_state ON
               (kitchen, start [Answer true; Answer true; Answer false;
                                Fails (IOError "timed out")]))
    = Raise (SpeakerConnectError "Communication error")
  /\ _sp (fst (state_of (pvt_set_power_state ON
                           (kitchen, start [Answer true; Answer true;
                                            Answer false;
                                            Fails (IOError "timed out")]))))
       = None.
Proof.
  destruct (io_failure_discards_session kitchen
              (start [Answer true; Answer true; Answer false;
                      Fails (IOError "timed out")])
              ON ON 0%nat "timed out") as (Hres & Hsp & _).
  - right. vm_compute. auto 10.
  - split; [exact Hres | exact Hsp].
Defined.

End Scenarios.

(** ** More about the state machine *)

Section StateMachineMore.

Import SpeakerThread Supervision.

Lemma seconds_in_day (now changed : datetime) (k : Z) :
  after_seconds changed (k * 86400) <= now
    < after_seconds changed ((k + 1) * 86400) ->
  seconds (datetime_sub now changed)
    = (now - changed) / 1000000 - k * 86400.
Proof.
  unfold after_seconds, datetime_sub, timedelta_of_microseconds,
    usec_per_second, seconds_per_day; simpl.
  intros Hnow.
  assert (Hq : k * 86400 <= (now - changed) / 1000000 < (k + 1) * 86400).
  { split.
    - apply Z.div_le_lower_bound; lia.
    - apply Z.div_lt_upper_bound; lia. }
  symmetry. apply (Z.mod_unique _ _ k); [left; lia | lia].
Qed.

(** X1: while STOPPED, what a turn commands repeats every day counted
    from the stamp: in each day it commands nothing during the first 61
    seconds and switch_off during the rest.  The days before the stamp
    (a clock set back) count as well. *)
Theorem stopped_poll_wraps_daily :
  forall (T now : datetime) (k : Z) (event : bool),
    after_seconds T (k * 86400) <= now < after_seconds T ((k + 1) * 86400) ->
    snd (run_body now (mk STOPPED (Some T) event))
      = if now <? after_seconds T (k * 86400 + 61)
        then [] else [SpeakerRemote.switch_off].
Proof.
  intros T now k event Hnow.
  rewrite run_body_stopped, (seconds_in_day now T k Hnow).
  unfold TIMEOUT, after_seconds, usec_per_second in *.
  destruct (now <? T + (k * 86400 + 61) * 1000000) eqn:E.
  - apply Z.ltb_lt in E.
    assert (Hq : (now - T) / 1000000 < k * 86400 + 61)
      by (apply Z.div_lt_upper_bound; lia).
    destruct ((now - T) / 1000000 - k * 86400 >? 60) eqn:G; [|reflexivity].
    apply Z.gtb_gt in G. lia.
  - apply Z.ltb_ge in E.
    assert (Hq : k * 86400 + 61 <= (now - T) / 1000000)
      by (apply Z.div_le_lower_bound; lia).
    destruct ((now - T) / 1000000 - k * 86400 >? 60) eqn:G; [reflexivity|].
    rewrite Z.gtb_ltb in G. apply Z.ltb_ge in G. lia.
Qed.

(** One day and 30 seconds after the stamp the loop is silent again;
    30 seconds before the stamp it commands switch_off. *)
Lemma stopped_poll_wraps_daily_witness :
  snd (run_body (after_seconds 5000000 86430)
         (mk STOPPED (Some 5000000) false)) = []
  /\ snd (run_body (after_seconds 5000000 (-30))
            (mk STOPPED (Some 5000000) false)) = [SpeakerRemote.switch_off].
Proof.
  split.
  - apply (stopped_poll_wraps_daily 5000000 (after_seconds 5000000 86430) 1 false).
    split; [discriminate | reflexivity].
  - apply (stopped_poll_wraps_daily 5000000 (after_seconds 5000000 (-30)) (-1) false).
    split; [discriminate | reflexivity].
Defined.

Lemma run_body_event_cleared (now : datetime) (self : t) :
  _event (fst (run_body now self)) = false.
Proof.
  unfold run_body.
  destruct self as [st ch [|]]; simpl;
    destruct (st =? PLAYING); simpl; auto;
    destruct (st =? INACTIVE); simpl; auto;
    match goal with |- context [if ?c then _ else _] => destruct c end;
    reflexivity.
Qed.

Lemma run_body_at_most_one (now : datetime) (self : t) :
  (List.length (snd (run_body now self)) <= 1)%nat.
Proof.
  unfold run_body.
  destruct (_event self); simpl;
    destruct (_state self =? PLAYING); simpl; auto;
    destruct (_state self =? INACTIVE); simpl; auto;
    match goal with |- context [if ?c then _ else _] => destruct c end;
    simpl; auto.
Qed.

Lemma same_reading_trans (a b c : t) :
  same_reading a b -> same_reading b c -> same_reading a c.
Proof. intros [H1 H2] [H3 H4]. split; congruence. Qed.

(** X2: the loop never writes the state or the stamp: however many
    turns it takes, both are what they were.  Every turn leaves the event
    cleared and commands at most one call. *)
Theorem run_only_clears_event :
  forall (polls : list datetime) (self : t),
    _state (fst (run polls self)) = _state self
    /\ _state_changed (fst (run polls self)) = _state_changed self
    /\ _event (fst (run polls self))
         = match polls with [] => _event self | _ :: _ => false end
    /\ List.length (snd (run polls self)) = List.length polls
    /\ Forall (fun cmds => (List.length cmds <= 1)%nat) (snd (run polls self)).
Proof.
  induction polls as [|p rest IH]; intros self; simpl.
  - repeat split; constructor.
  - pose proof (run_body_same_reading p self) as [Hs Hc].
    pose proof (run_body_event_cleared p self) as He.
    pose proof (run_body_at_most_one p self) as Hl.
    destruct (run_body p self) as [self1 cmds].
    specialize (IH self1).
    destruct (run rest self1) as [self2 out].
    simpl in *. destruct IH as (IHs & IHc & IHe & IHl & IHf).
    repeat split.
    + congruence.
    + congruence.
    + destruct rest; congruence.
    + now rewrite IHl.
    + constructor; assumption.
Qed.

Lemma run_body_switch_on (now : datetime) (self : t) :
  In SpeakerRemote.switch_on (snd (run_body now self)) ->
  _state self = PLAYING.
Proof.
  unfold run_body.
  destruct self as [st ch ev]; simpl.
  assert (H : forall e,
    In SpeakerRemote.switch_on
      (snd (if st =? PLAYING then (mk st ch e, [SpeakerRemote.switch_on])
            else if st =? INACTIVE then (mk st ch e, [SpeakerRemote.switch_off])
            else if state_changed_seconds_ago now (mk st ch e) >? TIMEOUT
                 then (mk st ch e, [SpeakerRemote.switch_off])
                 else (mk st ch e, []))) ->
    st = PLAYING).
  { intros e. destruct (st =? PLAYING) eqn:E.
    - intros _. now apply Z.eqb_eq.
    - destruct (st =? INACTIVE); simpl.
      + intros [H|[]]. discriminate H.
      + destruct (state_changed_seconds_ago now (mk st ch e) >? TIMEOUT);
          simpl; [intros [H|[]]; discriminate H | intros []]. }
  destruct ev; apply H.
Qed.

Lemma run_nth_inv (polls : list datetime) (self : t) (i : nat)
    (cmds : list SpeakerRemote.call) :
  nth_error (snd (run polls self)) i = Some cmds ->
  exists now, nth_error polls i = Some now /\ cmds = snd (run_body now self).
Proof.
  intros H.
  destruct (nth_error polls i) as [now|] eqn:E.
  - exists now. split; [reflexivity|].
    rewrite (run_nth polls self i now E) in H. congruence.
  - apply nth_error_None in E. rewrite <- (run_length polls self) in E.
    apply nth_error_None in E. congruence.
Qed.

(** X3: a turn of the loop commands switch_on only when the state is
    PLAYING: from any other state no run ever switches the speakers
    on. *)
Theorem switch_on_only_when_playing :
  forall (polls : list datetime) (self : t) (i : nat)
         (cmds : list SpeakerRemote.call),
    nth_error (snd (run polls self)) i = Some cmds ->
    In SpeakerRemote.switch_on cmds ->
    _state self = PLAYING.
Proof.
  intros polls self i cmds Hi Hin.
  destruct (run_nth_inv polls self i cmds Hi) as (now & _ & ->).
  exact (run_body_switch_on now self Hin).
Qed.

Lemma switch_on_only_when_playing_witness :
  _state (mk PLAYING (Some 5000000) true) = PLAYING.
Proof.
  apply (switch_on_only_when_playing polls_every_10s
           (mk PLAYING (Some 5000000) true) 3 [SpeakerRemote.switch_on]).
  - reflexivity.
  - left. reflexivity.
Defined.

(** A callback leaves the state its readings stand for. *)
Lemma signal_speakers_state (c : MyController.t) (now : datetime) (self : t) :
  _state (fst (MyController.signal_speakers c now self)) = derived_state c.
Proof.
  unfold MyController.signal_speakers, derived_state, signal_inactive,
    signal_playing, signal_stopped.
  destruct (negb (MyController.is_active c));
    [|destruct (MyController.is_playing c)]; apply set_state_state.
Qed.

Lemma drive_cons (a : action) (rest : list action) (self : t) :
  drive (a :: rest) self
    = (fst (drive rest (fst (step a self))),
       snd (step a self) :: snd (drive rest (fst (step a self)))).
Proof.
  simpl. destruct (step a self) as [self1 cmds]; simpl.
  destruct (drive rest self1); reflexivity.
Qed.

(** X4: the last callback wins.  After any history the state is the one
    the most recent callback's readings stand for, whatever the earlier
    callbacks said and however many turns the loop took in between;
    without any callback it is the state the history started from. *)
Theorem state_follows_last_status :
  forall (history : list action) (self : t),
    _state (fst (drive history self))
      = match last_status history with
        | Some c => derived_state c
        | None => _state self
        end.
Proof.
  induction history as [|a rest IH]; intros self.
  - reflexivity.
  - rewrite drive_cons; simpl. rewrite IH.
    destruct (last_status rest) as [c|]; [reflexivity|].
    destruct a as [now c|now]; simpl.
    + apply signal_speakers_state.
    + apply run_body_same_reading.
Qed.

Lemma drive_nth (history : list action) :
  forall (self : t) (i : nat) (cmds : list SpeakerRemote.call),
    nth_error (snd (drive history self)) i = Some cmds ->
    exists a,
      nth_error history i = Some a
      /\ cmds = snd (step a (fst (drive (firstn i history) self))).
Proof.
  induction history as [|a rest IH]; intros self i cmds H.
  - destruct i; discriminate H.
  - rewrite drive_cons in H. destruct i as [|i]; simpl in H.
    + exists a. split; [reflexivity|]. simpl. congruence.
    + destruct (IH _ i cmds H) as (b & Hb & Hc).
      exists b. split; [exact Hb|].
      change (firstn (S i) (a :: rest)) with (a :: firstn i rest).
      rewrite drive_cons. exact Hc.
Qed.

(** X5: started from the object [__init__] leaves, the loop commands
    switch_on only on a turn whose most recent earlier callback found
    the receiver active and playing. *)
Theorem switch_on_only_after_playing_status :
  forall (history : list action) (i : nat) (cmds : list SpeakerRemote.call),
    nth_error (snd (drive history init)) i = Some cmds ->
    In SpeakerRemote.switch_on cmds ->
    exists (now : datetime) (c : MyController.t),
      nth_error history i = Some (Turn now)
      /\ last_status (firstn i history) = Some c
      /\ MyController.is_active c = true
      /\ MyController.is_playing c = true.
Proof.
  intros history i cmds Hi Hin.
  destruct (drive_nth history init i cmds Hi) as (a & Ha & ->).
  destruct a as [now c|now]; simpl in Hin; [destruct Hin|].
  apply run_body_switch_on in Hin.
  rewrite state_follows_last_status in Hin.
  destruct (last_status (firstn i history)) as [c|]; [|discriminate Hin].
  exists now, c. repeat split; try assumption; try reflexivity.
  - unfold derived_state in Hin.
    destruct (MyController.is_active c); [reflexivity | discriminate Hin].
  - unfold derived_state in Hin.
    destruct (MyController.is_active c), (MyController.is_playing c);
      try reflexivity; discriminate Hin.
Qed.

(** A callback reports playing at 5s, the loop turns at 6s. *)
Lemma switch_on_only_after_playing_status_witness :
  exists (now : datetime) (c : MyController.t),
    nth_error [Status 5000000 (MyController.mk true true); Turn 6000000] 1
      = Some (Turn now)
    /\ last_status
         (firstn 1 [Status 5000000 (MyController.mk true true); Turn 6000000])
       = Some c
    /\ MyController.is_active c = true
    /\ MyController.is_playing c = true.
Proof.
  apply (switch_on_only_after_playing_status
           [Status 5000000 (MyController.mk true true); Turn 6000000] 1
           [SpeakerRemote.switch_on]).
  - reflexivity.
  - left. reflexivity.
Defined.

End StateMachineMore.

(** ** More about the device handle *)

Section HandleMore.

Import SpeakerAccess.

Context {world : Type} {lib : Broadlink world}.

Local Arguments String.append : simpl never.

(** X7: one set_state call never retries: it constructs at most one plug
    object, authenticates at most once, reads the power at most once and
    writes it at most once. *)
Theorem set_state_calls_each_at_most_once :
  forall (self : t) (w : world) (desired : bool),
    (count is_sp2 (trace_of (set_state desired (self, w))) <= 1)%nat
    /\ (count is_auth (trace_of (set_state desired (self, w))) <= 1)%nat
    /\ (count is_check_power (trace_of (set_state desired (self, w))) <= 1)%nat
    /\ (count is_set_power (trace_of (set_state desired (self, w))) <= 1)%nat.
Proof.
  intros [n h p m d [cur|]] w desired; explore;
    repeat split; auto.
Qed.

(** X8: when the read returns the other state, set_state writes the
    desired state, once, to the object it read from; and it writes
    nothing else: every write in the trace is of the desired state and
    follows such a read. *)
Theorem set_state_writes_iff_read_differs :
  forall (self : t) (w : world) (desired : bool) (dev : sp2_object),
    (In (Echeck_power dev (Return (negb desired)))
        (trace_of (set_state desired (self, w))) ->
     (exists r : result unit,
         In (Eset_power dev desired r) (trace_of (set_state desired (self, w))))
     /\ count is_set_power (trace_of (set_state desired (self, w))) = 1%nat)
    /\ (forall (b : bool) (r : result unit),
          In (Eset_power dev b r) (trace_of (set_state desired (self, w))) ->
          b = desired
          /\ In (Echeck_power dev (Return (negb desired)))
                (trace_of (set_state desired (self, w)))).
Proof.
  intros [n h p m d [cur|]] w desired dev; explore; split.
  all: try (intros b r H; simpl in H).
  all: try (intros H; simpl in H).
  all: absurd_event.
  all: split_bools.
  all: try (split; [eexists|reflexivity]).
  all: try (split; [reflexivity|]).
  all: try pick_event.
Qed.

(** X9: the only exceptions that leave set_state are those that
    check_power or set_power raised in this call and that are neither
    IOError nor SpeakerConnectError; the handle then still holds the
    plug object the call failed on. *)
Theorem set_state_raises_only_from_read_or_write :
  forall (self : t) (w : world) (desired : bool) (e : exn),
    result_of (set_state desired (self, w)) = Raise e ->
    is_IOError e = false
    /\ is_SpeakerConnectError e = false
    /\ exists dev : sp2_object,
         _sp (fst (state_of (set_state desired (self, w)))) = Some dev
         /\ (In (Echeck_power dev (Raise e))
                (trace_of (set_state desired (self, w)))
             \/ In (Eset_power dev desired (Raise e))
                   (trace_of (set_state desired (self, w)))).
Proof.
  intros [n h p m d [cur|]] w desired e; explore; intros H.
  all: try discriminate H.
  all: injection H as <-.
  all: repeat split; eexists; split; try reflexivity.
  all: first [ left; pick_event | right; pick_event ].
Qed.

(** X10: when set_state returns and has logged no warning, the plug
    reported the desired state or accepted the write of it, and the
    handle holds that plug object. *)
Theorem set_state_silent_return_means_done :
  forall (self : t) (w : world) (desired : bool),
    result_of (set_state desired (self, w)) = Return tt ->
    count is_warning (trace_of (set_state desired (self, w))) = 0%nat ->
    exists dev : sp2_object,
      _sp (fst (state_of (set_state desired (self, w)))) = Some dev
      /\ (In (Echeck_power dev (Return desired))
             (trace_of (set_state desired (self, w)))
          \/ In (Eset_power dev desired (Return tt))
                (trace_of (set_state desired (self, w)))).
Proof.
  intros [n h p m d [cur|]] w desired; explore; intros H Hw.
  all: try discriminate H.
  all: try discriminate Hw.
  all: eexists; split; try reflexivity.
  all: try (right; pick_event).
  all: left; split_bools; pick_event.
Qed.

(** X11: a failure that set_state catches (any exception of the
    constructor or of auth, an IOError of check_power or set_power) ends
    the call: set_state returns, and the last thing it did was to log
    the one warning of the call, which names the state, the speaker and
    the kind of failure. *)
Theorem set_state_logs_caught_failure :
  forall (self : t) (w : world) (desired : bool),
    existsb is_caught_failure (trace_of (set_state desired (self, w))) = true ->
    result_of (set_state desired (self, w)) = Return tt
    /\ count is_warning (trace_of (set_state desired (self, w))) = 1%nat
    /\ exists (before : list event) (reason : string),
         (reason = "Connection error" \/ reason = "Communication error")
         /\ trace_of (set_state desired (self, w))
            = before ++ [Elog WARNING
                           ("Could not turn " ++ power_state_as_text desired
                              ++ " " ++ name self ++ " speaker: " ++ reason)%string].
Proof.
  intros [n h p m d [cur|]] w desired; explore; intros H.
  all: try discriminate H.
  all: split; [reflexivity|split; [reflexivity|]].
  all: first
    [ exists []; eexists; split; [|reflexivity]; auto; fail
    | eexists [_]; eexists; split; [|reflexivity]; auto; fail
    | eexists [_; _]; eexists; split; [|reflexivity]; auto; fail
    | eexists [_; _; _]; eexists; split; [|reflexivity]; auto; fail
    | eexists [_; _; _; _]; eexists; split; [|reflexivity]; auto; fail
    | eexists [_; _; _; _; _]; eexists; split; [|reflexivity]; auto; fail
    | eexists [_; _; _; _; _; _]; eexists; split; [|reflexivity]; auto; fail
    | idtac ].
Qed.

Lemma io_failure_leaves_no_session (self : t) (w : world) (state : bool) :
  existsb is_read_write_IOError (trace_of (set_state state (self, w))) = true ->
  fst (state_of (set_state state (self, w))) = with_sp self None.
Proof.
  destruct self as [n h p m d [cur|]]; explore; intros H.
  all: try discriminate H.
  all: reflexivity.
Qed.

(** X12: set_state heals the handle.  After a call in which check_power
    or set_power failed with an IOError, the next call on a plug that
    answers again constructs a new object for the same address,
    authenticates it, reads the power and, the plug being in the other
    state, writes the desired one; the handle then holds the new
    object. *)
Theorem set_state_recovers_after_io_failure :
  forall (self : t) (w w' w1 w2 w3 w4 : world) (state desired b : bool)
         (dev : sp2_object),
    existsb is_read_write_IOError (trace_of (set_state state (self, w))) = true ->
    sp2 (host self) (port self) (mac self) (devtype self) w' = (Return dev, w1) ->
    auth dev w1 = (Return b, w2) ->
    check_power dev w2 = (Return (negb desired), w3) ->
    set_power dev desired w3 = (Return tt, w4) ->
    set_state desired (fst (state_of (set_state state (self, w))), w')
      = (Return tt, (with_sp self (Some dev), w4),
         [Esp2 (host self) (port self) (mac self) (devtype self) (Return dev);
          Eauth dev (Return b);
          Elog INFO ("Connected to " ++ name self ++ " speaker")%string;
          Echeck_power dev (Return (negb desired));
          Elog INFO ("Turning " ++ power_state_as_text desired ++ " "
                       ++ name self ++ " speaker")%string;
          Eset_power dev desired (Return tt)]).
Proof.
  intros self w w' w1 w2 w3 w4 state desired b dev Hfail H1 H2 H3 H4.
  rewrite (io_failure_leaves_no_session self w state Hfail).
  destruct self as [n h p m d cur]; simpl in *.
  unfold_method. rewrite H1; simpl. rewrite H2; simpl. rewrite H3; simpl.
  destruct desired; simpl; rewrite H4; reflexivity.
Qed.

(** X13: a handle constructed while the constructor of the plug object
    fails is created without one, and its first set_state, in whatever
    world, starts by constructing an object for the address given. *)
Theorem failed_construction_retried_on_first_use :
  forall (n h : string) (p : Z) (m : list Z) (d : Z) (w w1 : world) (e : exn),
    sp2 h p m d w = (Raise e, w1) ->
    exists self : t,
      result_of (__init__ n h p m d w) = Return self
      /\ _sp self = None
      /\ forall (desired : bool) (w' : world),
           exists (r : result sp2_object) (rest : list event),
             trace_of (set_state desired (self, w')) = Esp2 h p m d r :: rest.
Proof.
  intros n h p m d w w1 e H.
  exists (mk n h p m d None). repeat split.
  - unfold_method. rewrite H. reflexivity.
  - intros desired w'.
    destruct (disconnected_reconnects (mk n h p m d None) w' desired eq_refl)
      as (r & _ & rest & _ & Hr).
    exists r, rest. exact Hr.
Qed.

End HandleMore.

(** ** More scripted worlds *)

Section MoreScenarios.

Import SpeakerAccess Scripted.

(** The plug is off and is to be switched on. *)
Lemma set_state_writes_iff_read_differs_witness :
  (exists r : result unit,
      In (Eset_power 0%nat ON r)
         (trace_of (set_state ON (kitchen, start [Answer true; Answer true;
                                                  Answer false; Answer true]))))
  /\ count is_set_power
       (trace_of (set_state ON (kitchen, start [Answer true; Answer true;
                                                Answer false; Answer true])))
     = 1%nat.
Proof.
  apply (proj1 (set_state_writes_iff_read_differs kitchen
                  (start [Answer true; Answer true; Answer false; Answer true])
                  ON 0%nat)).
  vm_compute. auto 10.
Defined.

(** check_power raises an IndexError. *)
Lemma set_state_raises_only_from_read_or_write_witness :
  is_IOError (OtherException "IndexError") = false
  /\ is_SpeakerConnectError (OtherException "IndexError") = false
  /\ exists dev : sp2_object,
       _sp (fst (state_of (set_state ON
                             (kitchen, start [Answer true; Answer true;
                                              Fails (OtherException "IndexError")]))))
         = Some dev
       /\ (In (Echeck_power dev (Raise (OtherException "IndexError")))
              (trace_of (set_state ON
                           (kitchen, start [Answer true; Answer true;
                                            Fails (OtherException "IndexError")])))
           \/ In (Eset_power dev ON (Raise (OtherException "IndexError")))
                 (trace_of (set_state ON
                              (kitchen, start [Answer true; Answer true;
                                               Fails (OtherException "IndexError")])))).
Proof.
  apply (set_state_raises_only_from_read_or_write kitchen
           (start [Answer true; Answer true; Fails (OtherException "IndexError")])
           ON (OtherException "IndexError")).
  reflexivity.
Defined.

(** The plug is already on. *)
Lemma set_state_silent_return_means_done_witness :
  exists dev : sp2_object,
    _sp (fst (state_of (set_state ON (kitchen, start [Answer true; Answer true;
                                                      Answer true]))))
      = Some dev
    /\ (In (Echeck_power dev (Return ON))
           (trace_of (set_state ON (kitchen, start [Answer true; Answer true;
                                                    Answer true])))
        \/ In (Eset_power dev ON (Return tt))
              (trace_of (set_state ON (kitchen, start [Answer true; Answer true;
                                                       Answer true])))).
Proof.
  apply (set_state_silent_return_means_done kitchen
           (start [Answer true; Answer true; Answer true]) ON);
    reflexivity.
Defined.

(** The plug cannot be reached. *)
Lemma set_state_logs_caught_failure_witness :
  result_of (set_state OFF (kitchen, start [Fails (IOError "unreachable")]))
    = Return tt
  /\ count is_warning
       (trace_of (set_state OFF (kitchen, start [Fails (IOError "unreachable")])))
     = 1%nat
  /\ exists (before : list event) (reason : string),
       (reason = "Connection error" \/ reason = "Communication error")
       /\ trace_of (set_state OFF (kitchen, start [Fails (IOError "unreachable")]))
          = before ++ [Elog WARNING
                         ("Could not turn " ++ power_state_as_text OFF
                            ++ " " ++ name kitchen ++ " speaker: " ++ reason)%string].
Proof.
  apply (set_state_logs_caught_failure kitchen
           (start [Fails (IOError "unreachable")]) OFF).
  reflexivity.
Defined.

(** A connected handle meets a timeout, then a plug that is off. *)
Lemma set_state_recovers_after_io_failure_witness :
  set_state ON
    (fst (state_of (set_state ON (with_sp kitchen (Some 7%nat),
                                  start [Fails (IOError "timed out")]))),
     start [Answer true; Answer true; Answer false; Answer true])
  = (Return tt,
     (with_sp (with_sp kitchen (Some 7%nat)) (Some 0%nat), Scripted.mk 1%nat []),
     [Esp2 "192.168.1.20" 80 [52; 234; 52; 10; 11; 12] 10001 (Return 0%nat);
      Eauth 0%nat (Return true);
      Elog INFO ("Connected to " ++ "kitchen" ++ " speaker")%string;
      Echeck_power 0%nat (Return (negb ON));
      Elog INFO ("Turning " ++ power_state_as_text ON ++ " "
                   ++ "kitchen" ++ " speaker")%string;
      Eset_power 0%nat ON (Return tt)]).
Proof.
  apply (set_state_recovers_after_io_failure
           (with_sp kitchen (Some 7%nat))
           (start [Fails (IOError "timed out")])
           (start [Answer true; Answer true; Answer false; Answer true])
           (Scripted.mk 1%nat [Answer true; Answer false; Answer true])
           (Scripted.mk 1%nat [Answer false; Answer true])
           (Scripted.mk 1%nat [Answer true])
           (Scripted.mk 1%nat [])
           ON ON true 0%nat);
    reflexivity.
Defined.

(** The plug cannot be reached when the daemon starts. *)
Lemma failed_construction_retried_on_first_use_witness :
  exists self : t,
    result_of (__init__ "kitchen" "192.168.1.20" 80 [52; 234; 52; 10; 11; 12]
                 10001 (start [Fails (IOError "unreachable")]))
      = Return self
    /\ _sp self = None
    /\ forall (desired : bool) (w' : Scripted.world),
         exists (r : result sp2_object) (rest : list event),
           trace_of (set_state desired (self, w'))
             = Esp2 "192.168.1.20" 80 [52; 234; 52; 10; 11; 12] 10001 r :: rest.
Proof.
  apply (failed_construction_retried_on_first_use
           "kitchen" "192.168.1.20" 80 [52; 234; 52; 10; 11; 12] 10001
           (start [Fails (IOError "unreachable")])
           (start []) (IOError "unreachable")).
  reflexivity.
Defined.

End MoreScenarios.

(** ** The configuration of a speaker *)

Section Split.

Variable sep : Ascii.ascii.

Lemma split_not_nil (s : string) : split sep s <> [].
Proof.
  destruct s as [|c rest]; simpl; [discriminate|].
  destruct (Ascii.eqb c sep); [discriminate|].
  destruct (split sep rest); discriminate.
Qed.

Lemma split_length (s : string) :
  List.length (split sep s) = S (occurrences sep s).
Proof.
  induction s as [|c rest IH]; simpl; [reflexivity|].
  destruct (Ascii.eqb c sep); simpl.
  - now rewrite IH.
  - destruct (split sep rest) as [|part parts] eqn:E.
    + now apply split_not_nil in E.
    + simpl in *. exact IH.
Qed.

Lemma split_pieces_free (s : string) :
  Forall (fun piece => occurs sep piece = false) (split sep s).
Proof.
  induction s as [|c rest IH]; simpl.
  - constructor; [reflexivity | constructor].
  - destruct (Ascii.eqb c sep) eqn:E.
    + constructor; [reflexivity | exact IH].
    + destruct (split sep rest) as [|part parts].
      * constructor; [simpl; now rewrite E | constructor].
      * inversion IH; subst. constructor; [simpl; now rewrite E | assumption].
Qed.

(** Joining the pieces with the separator gives the text back. *)
Lemma split_join (s : string) :
  String.concat (String sep EmptyString) (split sep s) = s.
Proof.
  induction s as [|c rest IH]; simpl; [reflexivity|].
  destruct (Ascii.eqb c sep) eqn:E.
  - apply Ascii.eqb_eq in E; subst c.
    destruct (split sep rest) as [|part parts] eqn:Es.
    + now apply split_not_nil in Es.
    + simpl in *. now rewrite IH.
  - destruct (split sep rest) as [|part parts] eqn:Es.
    + now apply split_not_nil in Es.
    + destruct parts; simpl in *; now rewrite IH.
Qed.

Lemma split_free (s : string) :
  occurs sep s = false -> split sep s = [s].
Proof.
  induction s as [|c rest IH]; simpl; [reflexivity|].
  destruct (Ascii.eqb c sep); simpl; [discriminate|].
  intros H. now rewrite (IH H).
Qed.

Lemma split_app (a b : string) :
  occurs sep a = false ->
  split sep (a ++ String sep b) = a :: split sep b.
Proof.
  induction a as [|c rest IH]; simpl.
  - intros _. now rewrite Ascii.eqb_refl.
  - destruct (Ascii.eqb c sep); simpl; [discriminate|].
    intros H. now rewrite (IH H).
Qed.

Lemma split_pair (s a b : string) :
  split sep s = [a; b] ->
  s = (a ++ String sep b)%string
  /\ occurs sep a = false /\ occurs sep b = false.
Proof.
  intros H.
  pose proof (split_join s) as Hj. rewrite H in Hj. simpl in Hj.
  pose proof (split_pieces_free s) as Hf. rewrite H in Hf.
  inversion Hf as [|? ? Ha Hf']; subst. inversion Hf' as [|? ? Hb _]; subst.
  repeat split; auto.
Qed.

End Split.

Section Config.

Import SpeakerAccess.

Context {world : Type} {lib : Broadlink world} {py : Builtins}.

Local Arguments String.append : simpl never.

(** Construction returns the handle for what it was given, having
    called the constructor of the plug object once. *)
Lemma init_returns (n h : string) (p : Z) (m : list Z) (d : Z) (w : world) :
  exists self : t,
    result_of (__init__ n h p m d w) = Return self
    /\ name self = n /\ host self = h /\ port self = p /\ mac self = m
    /\ devtype self = d
    /\ count is_sp2 (trace_of (__init__ n h p m d w)) = 1%nat.
Proof.
  explore; eexists; repeat split; reflexivity.
Qed.

(** [from_config], check by check. *)
Lemma from_config_unfold (n : string) (conf : speaker_conf) (w : world) :
  from_config n conf w =
    match conf_mac conf with
    | None => (Raise (OtherException "KeyError"), w, [])
    | Some mac_text =>
        match bytearray_fromhex mac_text with
        | Raise e => (Raise e, w, [])
        | Return m =>
            match conf_address conf with
            | None => (Raise (OtherException "KeyError"), w, [])
            | Some address =>
                match split colon address with
                | [h; port_text] =>
                    match int port_text with
                    | Raise e => (Raise e, w, [])
                    | Return p =>
                        match conf_devtype conf with
                        | None => (Raise (OtherException "KeyError"), w, [])
                        | Some d => __init__ n h p m d w
                        end
                    end
                | _ => (Raise (OtherException "ValueError"), w, [])
                end
            end
        end
    end.
Proof.
  unfold from_config, bind, subscript, builtin, unpack_pair, ret, raise.
  destruct (conf_mac conf) as [mac_text|]; [|reflexivity].
  destruct (bytearray_fromhex mac_text) as [m|e]; [|reflexivity].
  destruct (conf_address conf) as [address|]; [|reflexivity].
  destruct (split colon address) as [|h [|port_text [|x rest]]];
    try reflexivity.
  simpl. destruct (int port_text) as [p|e]; [|reflexivity].
  destruct (conf_devtype conf) as [d|]; [|reflexivity].
  destruct (__init__ n h p m d w) as [[r w'] tr]. reflexivity.
Qed.

(** X14: from_config raises only over the table, never over the plug,
    and when it raises it has not called the plug library: the world is
    as it was and nothing was logged. *)
Theorem from_config_raises_before_connecting :
  forall (n : string) (conf : speaker_conf) (w : world) (e : exn),
    result_of (from_config n conf w) = Raise e ->
    from_config n conf w = (Raise e, w, [])
    /\ acceptable conf = false.
Proof.
  intros n conf w e. rewrite from_config_unfold. unfold acceptable.
  destruct (conf_mac conf) as [mac_text|];
    [|intros H; injection H as <-; split; reflexivity].
  destruct (bytearray_fromhex mac_text) as [m|e'];
    [|intros H; injection H as <-; split;
       [reflexivity | destruct (conf_address conf), (conf_devtype conf); reflexivity]].
  destruct (conf_address conf) as [address|];
    [|intros H; injection H as <-; split; reflexivity].
  destruct (split colon address) as [|h [|port_text [|x rest]]];
    try (intros H; injection H as <-; split;
         [reflexivity | destruct (conf_devtype conf); reflexivity]).
  destruct (int port_text) as [p|e'];
    [|intros H; injection H as <-; split;
       [reflexivity | destruct (conf_devtype conf); reflexivity]].
  destruct (conf_devtype conf) as [d|];
    [|intros H; injection H as <-; split; reflexivity].
  intros H.
  destruct (init_returns n h p m d w) as (self & Hr & _).
  rewrite Hr in H. discriminate H.
Qed.

(** X15: when from_config returns a handle, the address of the table is
    the handle's host, a colon, and a text that int turns into the
    handle's port; neither piece holds a colon.  The other fields are the
    name given, the bytes of mac and the devtype of the table, and the
    handle is the one that construction from these gives. *)
Theorem from_config_splits_address :
  forall (n : string) (conf : speaker_conf) (w : world) (self : t),
    result_of (from_config n conf w) = Return self ->
    exists mac_text port_text : string,
      conf_address conf = Some (host self ++ String colon port_text)%string
      /\ occurs colon (host self) = false
      /\ occurs colon port_text = false
      /\ int port_text = Return (port self)
      /\ conf_mac conf = Some mac_text
      /\ bytearray_fromhex mac_text = Return (mac self)
      /\ conf_devtype conf = Some (devtype self)
      /\ name self = n
      /\ from_config n conf w
           = __init__ n (host self) (port self) (mac self) (devtype self) w.
Proof.
  intros n conf w self. rewrite from_config_unfold.
  destruct (conf_mac conf) as [mac_text|]; [|discriminate].
  destruct (bytearray_fromhex mac_text) as [m|e'] eqn:Em; [|discriminate].
  destruct (conf_address conf) as [address|]; [|discriminate].
  destruct (split colon address) as [|h [|port_text [|x rest]]] eqn:Es;
    try discriminate.
  destruct (int port_text) as [p|e'] eqn:Ei; [|discriminate].
  destruct (conf_devtype conf) as [d|]; [|discriminate].
  intros H.
  destruct (init_returns n h p m d w) as (self' & Hr & Hn & Hh & Hp & Hm & Hd & _).
  rewrite Hr in H. injection H as <-. subst.
  destruct (split_pair colon address _ _ Es) as (Ha & Hfa & Hfb).
  exists mac_text, port_text. subst address.
  repeat split; auto.
Qed.

(** X16: an address without a colon, or with more than one (an IPv6
    literal, say), is refused: from_config raises ValueError once mac
    has been read, and no handle is made. *)
Theorem from_config_refuses_address :
  forall (n : string) (conf : speaker_conf) (w : world)
         (mac_text address : string) (m : list Z),
    conf_mac conf = Some mac_text ->
    bytearray_fromhex mac_text = Return m ->
    conf_address conf = Some address ->
    occurrences colon address <> 1%nat ->
    from_config n conf w = (Raise (OtherException "ValueError"), w, []).
Proof.
  intros n conf w mac_text address m H1 H2 H3 H4.
  rewrite from_config_unfold, H1, H2, H3.
  pose proof (split_length colon address) as Hl.
  destruct (split colon address) as [|h [|port_text [|x rest]]];
    try reflexivity.
  simpl in Hl. injection Hl as Hl. congruence.
Qed.

(** A table is acceptable exactly when from_config returns; it then
    returns whatever the plug answers, after one call of the constructor
    of the plug object. *)
Lemma from_config_returns_iff_acceptable :
  forall (n : string) (conf : speaker_conf) (w : world),
    (acceptable conf = true ->
     exists self : t,
       result_of (from_config n conf w) = Return self
       /\ name self = n
       /\ count is_sp2 (trace_of (from_config n conf w)) = 1%nat)
    /\ (acceptable conf = false ->
        exists e : exn, from_config n conf w = (Raise e, w, [])).
Proof.
  intros n conf w. rewrite from_config_unfold. unfold acceptable.
  destruct (conf_mac conf) as [mac_text|];
    [|split; [discriminate | eauto]].
  destruct (conf_address conf) as [address|];
    [|split; [discriminate | destruct (bytearray_fromhex mac_text); eauto]].
  destruct (conf_devtype conf) as [d|].
  - destruct (bytearray_fromhex mac_text) as [m|e'];
      [|split; [discriminate | eauto]].
    destruct (split colon address) as [|h [|port_text [|x rest]]];
      try (split; [discriminate | eauto]).
    destruct (int port_text) as [p|e']; [|split; [discriminate | eauto]].
    split; [|discriminate]. intros _.
    destruct (init_returns n h p m d w) as (self & Hr & Hn & _ & _ & _ & _ & Hc).
    exists self. auto.
  - split; [discriminate|]. intros _.
    destruct (bytearray_fromhex mac_text) as [m|e']; [|eauto].
    destruct (split colon address) as [|h [|port_text [|x rest]]]; eauto.
    destruct (int port_text); eauto.
Qed.

Lemma count_app (p : event -> bool) (a b : list event) :
  count p (a ++ b) = (count p a + count p b)%nat.
Proof. unfold count. now rewrite filter_app, length_app. Qed.

(** The comprehension, item by item. *)
Lemma speakers_from_items_cons (n : string) (conf : speaker_conf)
    (rest : list (string * speaker_conf)) (w : world) :
  speakers_from_items ((n, conf) :: rest) w =
    match from_config n conf w with
    | (Raise e, w1, tr1) => (Raise e, w1, tr1)
    | (Return speaker, w1, tr1) =>
        match speakers_from_items rest w1 with
        | (Raise e, w2, tr2) => (Raise e, w2, tr1 ++ tr2)
        | (Return others, w2, tr2) => (Return (speaker :: others), w2, tr1 ++ tr2)
        end
    end.
Proof.
  simpl. unfold bind, ret.
  destruct (from_config n conf w) as [[[speaker|e] w1] tr1]; [|reflexivity].
  destruct (speakers_from_items rest w1) as [[[others|e] w2] tr2];
    [|reflexivity].
  now rewrite app_nil_r.
Qed.

(** X17: when every table of the speakers section is acceptable,
    constructing the SpeakerRemote returns, whatever the plugs answer:
    it has one handle per table, in the order of the section and named
    by its keys, and it has called the constructor of the plug object
    once per table. *)
Theorem speakers_from_items_all_acceptable :
  forall (items : list (string * speaker_conf)) (w : world),
    forallb (fun item => acceptable (snd item)) items = true ->
    exists speakers : list t,
      result_of (speakers_from_items items w) = Return speakers
      /\ map name speakers = map fst items
      /\ count is_sp2 (trace_of (speakers_from_items items w))
         = List.length items.
Proof.
  induction items as [|[n conf] rest IH]; intros w Hok.
  - exists []. repeat split; reflexivity.
  - simpl in Hok. apply andb_true_iff in Hok. destruct Hok as [Hc Hrest].
    destruct (proj1 (from_config_returns_iff_acceptable n conf w) Hc)
      as (speaker & Hr & Hn & Hcount).
    rewrite speakers_from_items_cons.
    destruct (from_config n conf w) as [[r w1] tr1].
    unfold result_of, trace_of in Hr, Hcount; simpl in Hr, Hcount. subst r.
    destruct (IH w1 Hrest) as (others & Ho & Hnames & Hcounts).
    destruct (speakers_from_items rest w1) as [[r2 w2] tr2].
    unfold result_of, trace_of in Ho, Hcounts; simpl in Ho, Hcounts. subst r2.
    exists (speaker :: others). unfold result_of, trace_of; simpl.
    repeat split.
    + now rewrite Hn, Hnames.
    + now rewrite count_app, Hcount, Hcounts.
Qed.

(** X18: one table that is not acceptable makes the construction of the
    SpeakerRemote raise.  The tables before it have had their connection
    attempt by then, one constructor call each; those after it are never
    looked at. *)
Theorem speakers_from_items_first_bad_aborts :
  forall (good : list (string * speaker_conf)) (n : string)
         (bad : speaker_conf) (rest : list (string * speaker_conf))
         (w : world),
    forallb (fun item => acceptable (snd item)) good = true ->
    acceptable bad = false ->
    exists e : exn,
      result_of (speakers_from_items (good ++ (n, bad) :: rest) w) = Raise e
      /\ count is_sp2
           (trace_of (speakers_from_items (good ++ (n, bad) :: rest) w))
         = List.length good.
Proof.
  induction good as [|[gn gconf] good IH]; intros n bad rest w Hok Hbad.
  - simpl app. rewrite speakers_from_items_cons.
    destruct (proj2 (from_config_returns_iff_acceptable n bad w) Hbad)
      as (e & He).
    rewrite He. exists e. split; reflexivity.
  - simpl in Hok. apply andb_true_iff in Hok. destruct Hok as [Hc Hrest].
    destruct (proj1 (from_config_returns_iff_acceptable gn gconf w) Hc)
      as (speaker & Hr & _ & Hcount).
    simpl app. rewrite speakers_from_items_cons.
    destruct (from_config gn gconf w) as [[r w1] tr1].
    unfold result_of, trace_of in Hr, Hcount; simpl in Hr, Hcount. subst r.
    destruct (IH n bad rest w1 Hrest Hbad) as (e & He & Hcounts).
    destruct (speakers_from_items (good ++ (n, bad) :: rest) w1)
      as [[r2 w2] tr2].
    unfold result_of, trace_of in He, Hcounts; simpl in He, Hcounts. subst r2.
    exists e. unfold result_of, trace_of; simpl.
    split; [reflexivity|]. now rewrite count_app, Hcount, Hcounts.
Qed.

End Config.

(** ** Looking for the Chromecast *)

Section Discovery.

Import Main.

Local Arguments String.append : simpl never.

Lemma find_absent (cast_name : string) (scan : list chromecast) :
  find (named cast_name) scan = None <-> absent cast_name scan = true.
Proof.
  unfold absent. induction scan as [|cc rest IH]; simpl.
  - split; reflexivity.
  - destruct (named cast_name cc); simpl.
    + split; discriminate.
    + exact IH.
Qed.

(** Read the other way round: a cast that the loop ended with is the
    first receiver of the name in the first scan that held one. *)
Lemma discover_found_inv :
  forall (cast_name : string) (scans : list (list chromecast))
         (cc : chromecast) (effects : list effect),
    discover cast_name scans = (Some cc, effects) ->
    exists (before : list (list chromecast)) (found : list chromecast)
           (later : list (list chromecast)),
      scans = before ++ found :: later
      /\ forallb (absent cast_name) before = true
      /\ find (named cast_name) found = Some cc
      /\ friendly_name cc = cast_name
      /\ tally is_scan effects = S (List.length before)
      /\ tally is_retry_warning effects = S (List.length before)
      /\ slept effects = 2 * Z.of_nat (S (List.length before)).
Proof.
  intros cast_name scans. induction scans as [|scan rest IH]; intros cc effects H.
  - discriminate H.
  - simpl in H.
    destruct (find (named cast_name) scan) as [hit|] eqn:Ef.
    + injection H as <- <-.
      exists [], scan, rest. repeat split; try reflexivity.
      * exact Ef.
      * apply find_some in Ef. destruct Ef as [_ Hn].
        now apply String.eqb_eq in Hn.
    + destruct (discover cast_name rest) as [cast effs] eqn:Ed.
      injection H as -> <-.
      destruct (IH cc effs eq_refl)
        as (before & found & later & Hs & Hb & Hf & Hn & Hscan & Hw & Hsl).
      exists (scan :: before), found, later. subst rest.
      repeat split; try assumption.
      * simpl. rewrite Hb. now rewrite (proj1 (find_absent _ _) Ef).
      * unfold tally in *. simpl. now rewrite Hscan.
      * unfold tally in *. simpl. now rewrite Hw.
      * change (slept _) with (2 + slept effs). rewrite Hsl.
        change (List.length (scan :: before)) with (S (List.length before)).
        lia.
Qed.

Lemma find_first (cast_name : string) (earlier rest : list chromecast)
    (cc : chromecast) :
  absent cast_name earlier = true ->
  friendly_name cc = cast_name ->
  find (named cast_name) (earlier ++ cc :: rest) = Some cc.
Proof.
  intros Ha Hn. unfold absent in Ha. apply negb_true_iff in Ha.
  induction earlier as [|x earlier IH]; simpl in *.
  - unfold named. rewrite Hn, String.eqb_refl. reflexivity.
  - apply orb_false_iff in Ha. destruct Ha as [Hx Hrest].
    rewrite Hx. exact (IH Hrest).
Qed.

(** X19: the loop ends with the first scan that holds a receiver of the
    name, and with the first such receiver of that scan for cast: when
    the scans before held none, and in this scan the receivers before it
    are not of the name, the loop returns it and makes none of the later
    scans.  It has then taken one turn per scan up to this one, and
    every turn, the one that found the receiver included, has logged
    that it connects, scanned, logged the retry warning and slept 2
    seconds; the line that it is connected comes last. *)
Theorem discover_takes_first_match :
  forall (cast_name : string) (before : list (list chromecast))
         (earlier : list chromecast) (cc : chromecast)
         (rest : list chromecast) (later : list (list chromecast)),
    forallb (absent cast_name) before = true ->
    absent cast_name earlier = true ->
    friendly_name cc = cast_name ->
    discover cast_name (before ++ (earlier ++ cc :: rest) :: later)
      = (Some cc,
         flat_map
           (fun _ =>
              [Log INFO ("Connecting to " ++ cast_name)%string;
               Scan;
               Log WARNING
                 "Could not connect to chromecast, retrying in 10 seconds";
               Sleep 2])
           (before ++ [earlier ++ cc :: rest])
         ++ [Log INFO ("Connected to " ++ cast_name)%string])
    /\ tally is_scan
         (snd (discover cast_name (before ++ (earlier ++ cc :: rest) :: later)))
       = S (List.length before)
    /\ tally is_retry_warning
         (snd (discover cast_name (before ++ (earlier ++ cc :: rest) :: later)))
       = S (List.length before)
    /\ slept
         (snd (discover cast_name (before ++ (earlier ++ cc :: rest) :: later)))
       = 2 * Z.of_nat (S (List.length before)).
Proof.
  intros cast_name before earlier cc rest later Hb He Hn.
  induction before as [|scan before IH].
  - simpl app. simpl discover.
    rewrite (find_first cast_name earlier rest cc He Hn).
    repeat split; reflexivity.
  - simpl in Hb. apply andb_true_iff in Hb. destruct Hb as [Hs Hb].
    apply find_absent in Hs.
    destruct (IH Hb) as (Hd & Hscan & Hw & Hsl).
    change ((scan :: before) ++ (earlier ++ cc :: rest) :: later)
      with (scan :: (before ++ (earlier ++ cc :: rest) :: later)).
    simpl discover. rewrite Hs.
    destruct (discover cast_name (before ++ (earlier ++ cc :: rest) :: later))
      as [cast effs].
    cbn [fst snd] in *.
    injection Hd as -> ->.
    change (List.length (scan :: before)) with (S (List.length before)).
    repeat split.
    + unfold tally in *. simpl in *. now rewrite Hscan.
    + unfold tally in *. simpl in *. now rewrite Hw.
    + match goal with |- slept ?l = _ =>
        change (slept l) with (2 + slept
          (flat_map
             (fun _ =>
                [Log INFO ("Connecting to " ++ cast_name)%string;
                 Scan;
                 Log WARNING
                   "Could not connect to chromecast, retrying in 10 seconds";
                 Sleep 2])
             (before ++ [earlier ++ cc :: rest])
           ++ [Log INFO ("Connected to " ++ cast_name)%string]))
      end.
      rewrite Hsl. lia.
Qed.

(** X20: the loop does not give up: as long as no scan holds a receiver
    of the name there is no cast, and every turn has scanned once, logged
    the retry warning and slept 2 seconds. *)
Theorem discover_keeps_looking :
  forall (cast_name : string) (scans : list (list chromecast)),
    forallb (absent cast_name) scans = true ->
    fst (discover cast_name scans) = None
    /\ tally is_scan (snd (discover cast_name scans)) = List.length scans
    /\ tally is_retry_warning (snd (discover cast_name scans))
       = List.length scans
    /\ slept (snd (discover cast_name scans)) = 2 * Z.of_nat (List.length scans).
Proof.
  intros cast_name scans. induction scans as [|scan rest IH]; intros H.
  - repeat split; reflexivity.
  - simpl in H. apply andb_true_iff in H. destruct H as [Ha Hrest].
    apply find_absent in Ha. simpl. rewrite Ha.
    destruct (IH Hrest) as (Hn & Hscan & Hw & Hsl).
    destruct (discover cast_name rest) as [cast effs].
    cbn [fst snd] in *.
    change (List.length (scan :: rest)) with (S (List.length rest)).
    repeat split.
    + exact Hn.
    + unfold tally in *. simpl. now rewrite Hscan.
    + unfold tally in *. simpl. now rewrite Hw.
    + change (slept _) with (2 + slept effs). rewrite Hsl. lia.
Qed.

End Discovery.

(** ** The configuration and the search on examples *)

Section ConfigScenarios.

Import SpeakerAccess Scripted Main.

(** The table lacks its mac. *)
Lemma from_config_raises_before_connecting_witness :
  from_config "kitchen"
    (mk_speaker_conf None (Some "192.168.1.20:80") (Some 10001))
    (start [Answer true; Answer true])
  = (Raise (OtherException "KeyError"), start [Answer true; Answer true], [])
  /\ acceptable (mk_speaker_conf None (Some "192.168.1.20:80") (Some 10001))
     = false.
Proof.
  apply (from_config_raises_before_connecting "kitchen"
           (mk_speaker_conf None (Some "192.168.1.20:80") (Some 10001))
           (start [Answer true; Answer true])
           (OtherException "KeyError")).
  reflexivity.
Defined.

(** The table of the kitchen speaker, and a plug that answers. *)
Lemma from_config_splits_address_witness :
  exists mac_text port_text : string,
    conf_address kitchen_conf
      = Some (host (with_sp kitchen (Some 0%nat)) ++ String colon port_text)%string
    /\ occurs colon (host (with_sp kitchen (Some 0%nat))) = false
    /\ occurs colon port_text = false
    /\ int port_text = Return (port (with_sp kitchen (Some 0%nat)))
    /\ conf_mac kitchen_conf = Some mac_text
    /\ bytearray_fromhex mac_text = Return (mac (with_sp kitchen (Some 0%nat)))
    /\ conf_devtype kitchen_conf = Some (devtype (with_sp kitchen (Some 0%nat)))
    /\ name (with_sp kitchen (Some 0%nat)) = "kitchen"
    /\ from_config "kitchen" kitchen_conf (start [Answer true; Answer true])
       = __init__ "kitchen" (host (with_sp kitchen (Some 0%nat)))
           (port (with_sp kitchen (Some 0%nat)))
           (mac (with_sp kitchen (Some 0%nat)))
           (devtype (with_sp kitchen (Some 0%nat)))
           (start [Answer true; Answer true]).
Proof.
  apply (from_config_splits_address "kitchen" kitchen_conf
           (start [Answer true; Answer true]) (with_sp kitchen (Some 0%nat))).
  reflexivity.
Defined.

(** An IPv6 address with its port. *)
Lemma from_config_refuses_address_witness :
  from_config "kitchen"
    (mk_speaker_conf (Some "34ea340a0b0c") (Some "fe80::1:80") (Some 10001))
    (start [Answer true; Answer true])
  = (Raise (OtherException "ValueError"), start [Answer true; Answer true], []).
Proof.
  apply (from_config_refuses_address "kitchen"
           (mk_speaker_conf (Some "34ea340a0b0c") (Some "fe80::1:80") (Some 10001))
           (start [Answer true; Answer true])
           "34ea340a0b0c" "fe80::1:80" [52; 234; 52; 10; 11; 12]).
  - reflexivity.
  - reflexivity.
  - reflexivity.
  - vm_compute. discriminate.
Defined.

(** Two speakers, the second of which cannot be reached. *)
Lemma speakers_from_items_all_acceptable_witness :
  exists speakers : list t,
    result_of (speakers_from_items [("kitchen", kitchen_conf); ("hall", kitchen_conf)]
                 (start [Answer true; Answer true; Fails (IOError "unreachable")]))
      = Return speakers
    /\ map name speakers
       = map fst [("kitchen", kitchen_conf); ("hall", kitchen_conf)]
    /\ count is_sp2
         (trace_of (speakers_from_items
                      [("kitchen", kitchen_conf); ("hall", kitchen_conf)]
                      (start [Answer true; Answer true;
                              Fails (IOError "unreachable")])))
       = List.length [("kitchen", kitchen_conf); ("hall", kitchen_conf)].
Proof.
  apply (speakers_from_items_all_acceptable
           [("kitchen", kitchen_conf); ("hall", kitchen_conf)]
           (start [Answer true; Answer true; Fails (IOError "unreachable")])).
  reflexivity.
Defined.

(** The second table has no devtype. *)
Lemma speakers_from_items_first_bad_aborts_witness :
  exists e : exn,
    result_of (speakers_from_items
                 ([("kitchen", kitchen_conf)]
                    ++ ("hall", mk_speaker_conf (Some "34ea340a0b0c")
                                  (Some "192.168.1.21:80") None)
                    :: [("attic", kitchen_conf)])
                 (start [Answer true; Answer true]))
      = Raise e
    /\ count is_sp2
         (trace_of (speakers_from_items
                      ([("kitchen", kitchen_conf)]
                         ++ ("hall", mk_speaker_conf (Some "34ea340a0b0c")
                                       (Some "192.168.1.21:80") None)
                         :: [("attic", kitchen_conf)])
                      (start [Answer true; Answer true])))
       = List.length [("kitchen", kitchen_conf)].
Proof.
  apply (speakers_from_items_first_bad_aborts
           [("kitchen", kitchen_conf)] "hall"
           (mk_speaker_conf (Some "34ea340a0b0c") (Some "192.168.1.21:80") None)
           [("attic", kitchen_conf)]
           (start [Answer true; Answer true]));
    reflexivity.
Defined.

(** The second scan finds two receivers of the name; the first is
    taken. *)
Lemma discover_takes_first_match_witness :
  discover "Living Room"
    ([[television]] ++ ([television] ++ speaker_a :: [speaker_b]) :: [])
    = (Some speaker_a,
       flat_map
         (fun _ =>
            [Log INFO ("Connecting to " ++ "Living Room")%string;
             Scan;
             Log WARNING
               "Could not connect to chromecast, retrying in 10 seconds";
             Sleep 2])
         ([[television]] ++ [[television] ++ speaker_a :: [speaker_b]])
       ++ [Log INFO ("Connected to " ++ "Living Room")%string])
  /\ tally is_scan
       (snd (discover "Living Room"
               ([[television]] ++ ([television] ++ speaker_a :: [speaker_b]) :: [])))
     = S (List.length [[television]])
  /\ tally is_retry_warning
       (snd (discover "Living Room"
               ([[television]] ++ ([television] ++ speaker_a :: [speaker_b]) :: [])))
     = S (List.length [[television]])
  /\ slept
       (snd (discover "Living Room"
               ([[television]] ++ ([television] ++ speaker_a :: [speaker_b]) :: [])))
     = 2 * Z.of_nat (S (List.length [[television]])).
Proof.
  apply (discover_takes_first_match "Living Room" [[television]] [television]
           speaker_a [speaker_b] []);
    reflexivity.
Defined.

(** Only the television is ever found. *)
Lemma discover_keeps_looking_witness :
  fst (discover "Living Room" [[television]; []; [television]]) = None
  /\ tally is_scan (snd (discover "Living Room" [[television]; []; [television]]))
     = List.length [[television]; []; [television]]
  /\ tally is_retry_warning
       (snd (discover "Living Room" [[television]; []; [television]]))
     = List.length [[television]; []; [television]]
  /\ slept (snd (discover "Living Room" [[television]; []; [television]]))
     = 2 * Z.of_nat (List.length [[television]; []; [television]]).
Proof.
  apply (discover_keeps_looking "Living Room"
           [[television]; []; [television]]).
  reflexivity.
Defined.

End ConfigScenarios.
